(** * UVM (variant 15): assembler encoding and interpreter semantics

    A shallow embedding of [assembler.py] (instruction classes, range checks,
    [to_bytes], [Assembler.to_binary]) and of [interpreter.py]
    ([VirtualMachine]: [read_bits], the four [execute_*] routines, [step],
    [run]), followed by the properties of the encoding and of the
    fetch/decode/execute engine.

    Python integers are [Z]; [|], [<<], [>>], [&] are [Z.lor], [Z.shiftl],
    [Z.shiftr], [Z.land]; [//] and [%] by a positive constant are [Z.div] and
    [Z.modulo].  A [bytes] object is a [list byte].  Exceptions are values of
    [exn]; the interpreter's methods live in a state-and-exception monad over
    the [VirtualMachine] record, so that a raise leaves behind exactly the
    mutations performed before it. *)

From Stdlib Require Import ZArith Lia Bool List.
From Stdlib.Strings Require Import Byte Ascii.
From stdpp Require Import base list strings pretty relations.

Local Open Scope Z_scope.

(** ** Exceptions and results *)

Inductive exn : Type :=
| ValueError (msg : string)
| IndexError (msg : string)
| OverflowError (msg : string).

Inductive Res (A : Type) : Type :=
| Ok (a : A)
| Raise (e : exn).
Arguments Ok {A} a.
Arguments Raise {A} e.

(** ** Python built-ins used by the two programs *)

(** [str(n)] for an integer. *)
Definition str (n : Z) : string := pretty n.

(** One byte as an integer in [0, 255], and back. *)
Definition byte_to_Z (b : byte) : Z := Z.of_N (Byte.to_N b).

Definition byte_of_Z (z : Z) : byte :=
  match Byte.of_N (Z.to_N (z mod 256)) with
  | Some b => b
  | None => x00
  end.

(** The [n] low bytes of [v], least significant first. *)
Fixpoint le_bytes (n : nat) (v : Z) : list byte :=
  match n with
  | O => []
  | S k => byte_of_Z (v mod 256) :: le_bytes k (v / 256)
  end.

(** [value.to_bytes(length, byteorder='little')]: fails on a negative value
    and on one that does not fit [length] bytes. *)
Definition int_to_bytes (value : Z) (length : nat) : Res (list byte) :=
  if value <? 0 then
    Raise (OverflowError "can't convert negative int to unsigned")
  else if 2 ^ (8 * Z.of_nat length) <=? value then
    Raise (OverflowError "int too big to convert")
  else Ok (le_bytes length value).

(** [int.from_bytes(bs, byteorder='little')]. *)
Fixpoint int_from_bytes (bs : list byte) : Z :=
  match bs with
  | [] => 0
  | b :: rest => byte_to_Z b + 256 * int_from_bytes rest
  end.

(** Bound of a slice [s[lo:hi]] brought into [0, len]: a negative bound
    counts from the end, and both are clamped. *)
Definition slice_bound (len i : Z) : Z :=
  if i <? 0 then Z.max 0 (i + len) else Z.min i len.

(** [s[lo:hi]]. *)
Definition py_slice {A : Type} (s : list A) (lo hi : Z) : list A :=
  let n := Z.of_nat (length s) in
  let a := slice_bound n lo in
  let b := slice_bound n hi in
  take (Z.to_nat (b - a)) (drop (Z.to_nat a) s).

(** Position designated by the subscript [i] in a list of [n] items:
    [-n <= i < 0] counts from the end, anything outside [-n, n) is an
    [IndexError]. *)
Definition list_index (n : nat) (i : Z) : option nat :=
  let j := if i <? 0 then i + Z.of_nat n else i in
  if (0 <=? j) && (j <? Z.of_nat n) then Some (Z.to_nat j) else None.

(** One past the largest subscript CPython converts to a list index
    ([sys.maxsize + 1] on a 64-bit build). *)
Definition index_limit : Z := 2 ^ 63.

(** The [IndexError] of a subscript [i] that designates no item.  A
    subscript outside [-2^63, 2^63) fails in the conversion to an index,
    with the message of that conversion; any other gets the message [msg]
    of the list operation.  A list holds fewer than [2^63] items, so a
    subscript that does not convert designates no item either: testing the
    position first, as below, gives what CPython gives. *)
Definition subscript_error (i : Z) (msg : string) : exn :=
  if (i <? - index_limit) || (index_limit <=? i) then
    IndexError "cannot fit 'int' into an index-sized integer"
  else IndexError msg.

(** [l[i]]. *)
Definition list_getitem (l : list Z) (i : Z) : Res Z :=
  match list_index (length l) i with
  | Some k =>
      match l !! k with
      | Some v => Ok v
      | None => Raise (subscript_error i "list index out of range")
      end
  | None => Raise (subscript_error i "list index out of range")
  end.

(** [l[i] = v]. *)
Definition list_setitem (l : list Z) (i v : Z) : Res (list Z) :=
  match list_index (length l) i with
  | Some k => Ok (<[k := v]> l)
  | None => Raise (subscript_error i "list assignment index out of range")
  end.

(** ** assembler.py *)

Inductive Instruction : Type :=
| LoadConst (constant address : Z)
| ReadMem (offset src_addr dst_addr : Z)
| WriteMem (src_addr dst_addr : Z)
| GTE (offset1 addr1 addr2 res_addr offset2 : Z).

(** The opcode passed to [Instruction.__init__] by each subclass. *)
Definition opcode (i : Instruction) : Z :=
  match i with
  | LoadConst _ _ => 111
  | ReadMem _ _ _ => 40
  | WriteMem _ _ => 101
  | GTE _ _ _ _ _ => 68
  end.

(** [not (0 <= v < bound)]. *)
Definition out_of_range (v bound : Z) : bool :=
  negb ((0 <=? v) && (v <? bound)).

Definition LoadConstInstruction (constant address : Z) : Res Instruction :=
  if out_of_range constant 2048 then
    Raise (ValueError ("Константа " +:+ str constant +:+ " вне диапазона [0, 2047]"))
  else if out_of_range address 67108864 then
    Raise (ValueError ("Адрес " +:+ str address +:+ " вне диапазона [0, 67108863]"))
  else Ok (LoadConst constant address).

Definition ReadMemInstruction (offset src_addr dst_addr : Z) : Res Instruction :=
  if out_of_range offset 256 then
    Raise (ValueError ("Смещение " +:+ str offset +:+ " вне диапазона [0, 255]"))
  else if out_of_range src_addr 67108864 then
    Raise (ValueError ("Адрес " +:+ str src_addr +:+ " вне диапазона [0, 67108863]"))
  else if out_of_range dst_addr 67108864 then
    Raise (ValueError ("Адрес " +:+ str dst_addr +:+ " вне диапазона [0, 67108863]"))
  else Ok (ReadMem offset src_addr dst_addr).

Definition WriteMemInstruction (src_addr dst_addr : Z) : Res Instruction :=
  if out_of_range src_addr 67108864 then
    Raise (ValueError ("Адрес " +:+ str src_addr +:+ " вне диапазона [0, 67108863]"))
  else if out_of_range dst_addr 67108864 then
    Raise (ValueError ("Адрес " +:+ str dst_addr +:+ " вне диапазона [0, 67108863]"))
  else Ok (WriteMem src_addr dst_addr).

Definition GTEInstruction (offset1 addr1 addr2 res_addr offset2 : Z)
  : Res Instruction :=
  if out_of_range offset1 256 then
    Raise (ValueError ("Смещение1 " +:+ str offset1 +:+ " вне диапазона [0, 255]"))
  else if out_of_range offset2 256 then
    Raise (ValueError ("Смещение2 " +:+ str offset2 +:+ " вне диапазона [0, 255]"))
  else if out_of_range addr1 67108864 then
    Raise (ValueError ("Адрес1 " +:+ str addr1 +:+ " вне диапазона [0, 67108863]"))
  else if out_of_range addr2 67108864 then
    Raise (ValueError ("Адрес2 " +:+ str addr2 +:+ " вне диапазона [0, 67108863]"))
  else if out_of_range res_addr 67108864 then
    Raise (ValueError ("Адрес результата " +:+ str res_addr
                         +:+ " вне диапазона [0, 67108863]"))
  else Ok (GTE offset1 addr1 addr2 res_addr offset2).

(** [to_bytes] of the four subclasses: all fields OR-ed into one integer at
    their bit positions, then [int.to_bytes] on the variant's byte count. *)
Definition to_bytes (i : Instruction) : Res (list byte) :=
  match i with
  | LoadConst constant address =>
      let value :=
        Z.lor (Z.lor (opcode i) (Z.shiftl constant 7)) (Z.shiftl address 18) in
      int_to_bytes value 6
  | ReadMem offset src_addr dst_addr =>
      let value :=
        Z.lor (Z.lor (Z.lor (opcode i) (Z.shiftl offset 7))
                 (Z.shiftl src_addr 15)) (Z.shiftl dst_addr 41) in
      int_to_bytes value 9
  | WriteMem src_addr dst_addr =>
      let value :=
        Z.lor (Z.lor (opcode i) (Z.shiftl src_addr 7)) (Z.shiftl dst_addr 33) in
      int_to_bytes value 8
  | GTE offset1 addr1 addr2 res_addr offset2 =>
      let value :=
        Z.lor (Z.lor (Z.lor (Z.lor (Z.lor (opcode i) (Z.shiftl offset1 7))
                               (Z.shiftl addr1 15)) (Z.shiftl addr2 41))
                 (Z.shiftl res_addr 67)) (Z.shiftl offset2 93) in
      int_to_bytes value 13
  end.

(** [Assembler.to_binary]: concatenation of the encodings in list order; the
    first failing [to_bytes] aborts it. *)
Fixpoint to_binary_from (binary : list byte) (instructions : list Instruction)
  : Res (list byte) :=
  match instructions with
  | [] => Ok binary
  | instr :: rest =>
      match to_bytes instr with
      | Ok bs => to_binary_from (binary ++ bs) rest
      | Raise e => Raise e
      end
  end.

Definition to_binary (instructions : list Instruction) : Res (list byte) :=
  to_binary_from [] instructions.

(** ** interpreter.py *)

Record VirtualMachine : Type := mkVM {
  data_memory : list Z;
  code_memory : list byte;
  pc : Z
}.

(** [VirtualMachine(memory_size)]; the default size is 100000. *)
Definition VirtualMachine_init (memory_size : Z) : VirtualMachine :=
  {| data_memory := replicate (Z.to_nat memory_size) 0;
     code_memory := [];
     pc := 0 |}.

Definition default_memory_size : Z := 100000.

(** A method body: it runs from a machine state and leaves a result or an
    exception, together with the state reached at that point. *)
Definition M (A : Type) : Type := VirtualMachine -> Res A * VirtualMachine.

Definition ret {A : Type} (a : A) : M A := fun vm => (Ok a, vm).

Definition raise {A : Type} (e : exn) : M A := fun vm => (Raise e, vm).

Definition bind {A B : Type} (m : M A) (k : A -> M B) : M B :=
  fun vm =>
    match m vm with
    | (Ok a, vm') => k a vm'
    | (Raise e, vm') => (Raise e, vm')
    end.

Notation "x <- m ;; k" := (bind m (fun x => k))
  (at level 100, m at next level, right associativity).
Notation "m ;;; k" := (bind m (fun _ => k))
  (at level 100, right associativity).

(** [self.data_memory[i]] *)
Definition mem_get (i : Z) : M Z := fun vm =>
  (list_getitem (data_memory vm) i, vm).

(** [self.data_memory[i] = v] *)
Definition mem_set (i v : Z) : M unit := fun vm =>
  match list_setitem (data_memory vm) i v with
  | Ok l => (Ok tt, {| data_memory := l;
                       code_memory := code_memory vm;
                       pc := pc vm |})
  | Raise e => (Raise e, vm)
  end.

(** [self.pc] and [len(self.code_memory)] *)
Definition get_pc : M Z := fun vm => (Ok (pc vm), vm).

Definition code_length : M Z := fun vm =>
  (Ok (Z.of_nat (length (code_memory vm))), vm).

(** [self.pc += n] *)
Definition pc_add (n : Z) : M unit := fun vm =>
  (Ok tt, {| data_memory := data_memory vm;
             code_memory := code_memory vm;
             pc := pc vm + n |}).

Definition load_program (binary_code : list byte) : M unit := fun vm =>
  (Ok tt, {| data_memory := data_memory vm;
             code_memory := binary_code;
             pc := 0 |}).

Definition read_bits (start_bit length : Z) : M Z := fun vm =>
  let start_byte := start_bit / 8 in
  let end_byte := (start_bit + length - 1) / 8 + 1 in
  let bytes_to_read :=
    py_slice (code_memory vm) (pc vm + start_byte) (pc vm + end_byte) in
  let value := int_from_bytes bytes_to_read in
  let bit_offset := start_bit mod 8 in
  if length <? 0 then (Raise (ValueError "negative shift count"), vm)
  else
    let mask := Z.shiftl 1 length - 1 in
    (Ok (Z.land (Z.shiftr value bit_offset) mask), vm).

Definition execute_load_const : M string :=
  opcode <- read_bits 0 7 ;;
  constant <- read_bits 7 11 ;;
  address <- read_bits 18 26 ;;
  mem_set address constant ;;;
  pc_add 6 ;;;
  ret ("LOAD_CONST: [" +:+ str address +:+ "] = " +:+ str constant).

Definition execute_read_mem : M string :=
  opcode <- read_bits 0 7 ;;
  offset <- read_bits 7 8 ;;
  src_addr <- read_bits 15 26 ;;
  dst_addr <- read_bits 41 26 ;;
  base <- mem_get src_addr ;;
  let effective_addr := base + offset in
  value <- mem_get effective_addr ;;
  mem_set dst_addr value ;;;
  pc_add 9 ;;;
  ret ("READ_MEM: [" +:+ str dst_addr +:+ "] = memory[memory["
         +:+ str src_addr +:+ "] + " +:+ str offset +:+ "] = memory["
         +:+ str effective_addr +:+ "] = " +:+ str value).

Definition execute_write_mem : M string :=
  opcode <- read_bits 0 7 ;;
  src_addr <- read_bits 7 26 ;;
  dst_addr <- read_bits 33 26 ;;
  value <- mem_get src_addr ;;
  mem_set dst_addr value ;;;
  pc_add 8 ;;;
  ret ("WRITE_MEM: [" +:+ str dst_addr +:+ "] = [" +:+ str src_addr
         +:+ "] = " +:+ str value).

Definition execute_gte : M string :=
  opcode <- read_bits 0 7 ;;
  offset1 <- read_bits 7 8 ;;
  addr1 <- read_bits 15 26 ;;
  addr2 <- read_bits 41 26 ;;
  res_addr <- read_bits 67 26 ;;
  offset2 <- read_bits 93 8 ;;
  base1 <- mem_get addr1 ;;
  let effective_addr1 := base1 + offset1 in
  base_res <- mem_get res_addr ;;
  let effective_res_addr := base_res + offset2 in
  operand1 <- mem_get effective_addr1 ;;
  operand2 <- mem_get addr2 ;;
  let result := if operand1 >=? operand2 then 1 else 0 in
  mem_set effective_res_addr result ;;;
  pc_add 13 ;;;
  ret ("GTE: [" +:+ str effective_res_addr +:+ "] = (" +:+ str operand1
         +:+ " >= " +:+ str operand2 +:+ ") = " +:+ str result).

(** [step]: [None] when the program is over, the executed instruction's
    trace line otherwise. *)
Definition step : M (option string) :=
  here <- get_pc ;;
  code_len <- code_length ;;
  if here >=? code_len then ret None
  else
    opcode <- read_bits 0 7 ;;
    if opcode =? 111 then s <- execute_load_const ;; ret (Some s)
    else if opcode =? 40 then s <- execute_read_mem ;; ret (Some s)
    else if opcode =? 101 then s <- execute_write_mem ;; ret (Some s)
    else if opcode =? 68 then s <- execute_gte ;; ret (Some s)
    else
      here <- get_pc ;;
      raise (ValueError ("Неизвестный код операции: " +:+ str opcode
                           +:+ " на позиции " +:+ str here)).

(** The loop of [run] with [verbose] off, cut after [fuel] iterations:
    [None] is an exhausted budget, otherwise the count of executed
    instructions or the exception that escaped, with the machine state at
    that point. *)
Fixpoint run_loop (fuel : nat) (step_count : Z) (vm : VirtualMachine)
  : option (Res Z * VirtualMachine) :=
  if pc vm <? Z.of_nat (length (code_memory vm)) then
    match fuel with
    | O => None
    | S fuel' =>
        match step vm with
        | (Ok None, vm') => Some (Ok step_count, vm')
        | (Ok (Some _), vm') => run_loop fuel' (step_count + 1) vm'
        | (Raise e, vm') => Some (Raise e, vm')
        end
    end
  else Some (Ok step_count, vm).

(** [run]: every iteration moves [pc] forward by six bytes at least, so the
    size of the program bounds the number of iterations
    ([run_loop_ends] below), and a larger budget changes nothing
    ([run_loop_more_fuel]). *)
Definition run (vm : VirtualMachine) : option (Res Z * VirtualMachine) :=
  run_loop (length (code_memory vm)) 0 vm.

(** ** Vocabulary of the statements *)

(** Bit number [k] of a buffer read as one little-endian integer: bit
    [k mod 8] of the byte at index [k / 8]; past the end there is nothing. *)
Definition buffer_bit (buf : list byte) (k : Z) : bool :=
  match buf !! Z.to_nat (k / 8) with
  | Some b => Z.testbit (byte_to_Z b) (k mod 8)
  | None => false
  end.

(** Every operand lies in the unsigned range of its declared width. *)
Definition operands_in_range (i : Instruction) : Prop :=
  match i with
  | LoadConst constant address =>
      0 <= constant < 2 ^ 11 /\ 0 <= address < 2 ^ 26
  | ReadMem offset src_addr dst_addr =>
      0 <= offset < 2 ^ 8 /\ 0 <= src_addr < 2 ^ 26 /\ 0 <= dst_addr < 2 ^ 26
  | WriteMem src_addr dst_addr =>
      0 <= src_addr < 2 ^ 26 /\ 0 <= dst_addr < 2 ^ 26
  | GTE offset1 addr1 addr2 res_addr offset2 =>
      0 <= offset1 < 2 ^ 8 /\ 0 <= addr1 < 2 ^ 26 /\ 0 <= addr2 < 2 ^ 26
      /\ 0 <= res_addr < 2 ^ 26 /\ 0 <= offset2 < 2 ^ 8
  end.

(** An instruction object that one of the four constructors returned. *)
Definition constructed (i : Instruction) : Prop :=
  (exists constant address, LoadConstInstruction constant address = Ok i)
  \/ (exists offset src_addr dst_addr,
        ReadMemInstruction offset src_addr dst_addr = Ok i)
  \/ (exists src_addr dst_addr, WriteMemInstruction src_addr dst_addr = Ok i)
  \/ (exists offset1 addr1 addr2 res_addr offset2,
        GTEInstruction offset1 addr1 addr2 res_addr offset2 = Ok i).

(** The fields of [i] as [read_bits] returns them in state [vm], at the bit
    offsets and widths of the layout table: the opcode first, each operand
    next to the previous one. *)
Definition reads_back (i : Instruction) (vm : VirtualMachine) : Prop :=
  match i with
  | LoadConst constant address =>
      read_bits 0 7 vm = (Ok 111, vm)
      /\ read_bits 7 11 vm = (Ok constant, vm)
      /\ read_bits 18 26 vm = (Ok address, vm)
  | ReadMem offset src_addr dst_addr =>
      read_bits 0 7 vm = (Ok 40, vm)
      /\ read_bits 7 8 vm = (Ok offset, vm)
      /\ read_bits 15 26 vm = (Ok src_addr, vm)
      /\ read_bits 41 26 vm = (Ok dst_addr, vm)
  | WriteMem src_addr dst_addr =>
      read_bits 0 7 vm = (Ok 101, vm)
      /\ read_bits 7 26 vm = (Ok src_addr, vm)
      /\ read_bits 33 26 vm = (Ok dst_addr, vm)
  | GTE offset1 addr1 addr2 res_addr offset2 =>
      read_bits 0 7 vm = (Ok 68, vm)
      /\ read_bits 7 8 vm = (Ok offset1, vm)
      /\ read_bits 15 26 vm = (Ok addr1, vm)
      /\ read_bits 41 26 vm = (Ok addr2, vm)
      /\ read_bits 67 26 vm = (Ok res_addr, vm)
      /\ read_bits 93 8 vm = (Ok offset2, vm)
  end.

(** The [ValueError] of a failed range check: the operand's label, the
    offending value and the allowed range. *)
Definition range_error (label : string) (value maximum : Z) : Res Instruction :=
  Raise (ValueError (label +:+ " " +:+ str value +:+ " вне диапазона [0, "
                       +:+ str maximum +:+ "]")).

(** What a constructor call may do with the operands making up [i]: return
    the object holding exactly these operands when all are in range, raise a
    [ValueError] when one is not. *)
Definition accepts_or_rejects (r : Res Instruction) (i : Instruction) : Prop :=
  (operands_in_range i /\ r = Ok i)
  \/ (~ operands_in_range i /\ exists msg, r = Raise (ValueError msg)).

(** The value [read_bits start_bit length] yields in state [vm]. *)
Definition bits_at (vm : VirtualMachine) (start_bit length : Z) : Z :=
  Z.land
    (Z.shiftr
       (int_from_bytes
          (py_slice (code_memory vm) (pc vm + start_bit / 8)
             (pc vm + ((start_bit + length - 1) / 8 + 1))))
       (start_bit mod 8))
    (Z.shiftl 1 length - 1).

(** The state after [self.data_memory = l] and [self.pc += n]. *)
Definition advance (vm : VirtualMachine) (l : list Z) (n : Z) : VirtualMachine :=
  {| data_memory := l; code_memory := code_memory vm; pc := pc vm + n |}.

(** The effect of one instruction executed without error from [vm]: the data
    memory it leaves and the distance [pc] moves.  One constructor per opcode,
    with the cells consulted and the single assignment made. *)
Inductive effect (vm : VirtualMachine) : list Z -> Z -> Prop :=
| effect_load_const (l : list Z) :
    bits_at vm 0 7 = 111 ->
    list_setitem (data_memory vm) (bits_at vm 18 26) (bits_at vm 7 11) = Ok l ->
    effect vm l 6
| effect_read_mem (base value : Z) (l : list Z) :
    bits_at vm 0 7 = 40 ->
    list_getitem (data_memory vm) (bits_at vm 15 26) = Ok base ->
    list_getitem (data_memory vm) (base + bits_at vm 7 8) = Ok value ->
    list_setitem (data_memory vm) (bits_at vm 41 26) value = Ok l ->
    effect vm l 9
| effect_write_mem (value : Z) (l : list Z) :
    bits_at vm 0 7 = 101 ->
    list_getitem (data_memory vm) (bits_at vm 7 26) = Ok value ->
    list_setitem (data_memory vm) (bits_at vm 33 26) value = Ok l ->
    effect vm l 8
| effect_gte (base1 base_res operand1 operand2 : Z) (l : list Z) :
    bits_at vm 0 7 = 68 ->
    list_getitem (data_memory vm) (bits_at vm 15 26) = Ok base1 ->
    list_getitem (data_memory vm) (bits_at vm 67 26) = Ok base_res ->
    list_getitem (data_memory vm) (base1 + bits_at vm 7 8) = Ok operand1 ->
    list_getitem (data_memory vm) (bits_at vm 41 26) = Ok operand2 ->
    list_setitem (data_memory vm) (base_res + bits_at vm 93 8)
      (if operand1 >=? operand2 then 1 else 0) = Ok l ->
    effect vm l 13.

(** [step] executed an instruction and went from [vm] to [vm']. *)
Definition stepped (vm vm' : VirtualMachine) : Prop :=
  exists s, step vm = (Ok (Some s), vm').

(** The message of the error raised on an opcode that no variant has. *)
Definition unknown_opcode (opcode position : Z) : exn :=
  ValueError ("Неизвестный код операции: " +:+ str opcode
                +:+ " на позиции " +:+ str position).

(** The address operand an executed instruction assigns through: the
    [address] field of LoadConst, the [dst_addr] field of ReadMem and
    WriteMem, and for Gte the effective result address
    [memory[res_addr] + offset2]. *)
Definition written_address (vm : VirtualMachine) (target : Z) : Prop :=
  (read_bits 0 7 vm = (Ok 111, vm) /\ read_bits 18 26 vm = (Ok target, vm))
  \/ (read_bits 0 7 vm = (Ok 40, vm) /\ read_bits 41 26 vm = (Ok target, vm))
  \/ (read_bits 0 7 vm = (Ok 101, vm) /\ read_bits 33 26 vm = (Ok target, vm))
  \/ (read_bits 0 7 vm = (Ok 68, vm)
      /\ exists res_addr offset2 base,
           read_bits 67 26 vm = (Ok res_addr, vm)
           /\ read_bits 93 8 vm = (Ok offset2, vm)
           /\ list_getitem (data_memory vm) res_addr = Ok base
           /\ target = base + offset2).

(** The value an executed instruction assigns, read off the state before the
    step: the [constant] field of LoadConst; for ReadMem the cell at
    [memory[src_addr] + offset]; for WriteMem the cell at [src_addr]; for Gte
    1 or 0 according to whether [operand1 >= operand2], with [operand1] the
    cell at [memory[addr1] + offset1] and [operand2] the cell at [addr2]. *)
Definition stored_value (vm : VirtualMachine) (value : Z) : Prop :=
  (read_bits 0 7 vm = (Ok 111, vm) /\ read_bits 7 11 vm = (Ok value, vm))
  \/ (read_bits 0 7 vm = (Ok 40, vm)
      /\ exists offset src_addr base,
           read_bits 7 8 vm = (Ok offset, vm)
           /\ read_bits 15 26 vm = (Ok src_addr, vm)
           /\ list_getitem (data_memory vm) src_addr = Ok base
           /\ list_getitem (data_memory vm) (base + offset) = Ok value)
  \/ (read_bits 0 7 vm = (Ok 101, vm)
      /\ exists src_addr,
           read_bits 7 26 vm = (Ok src_addr, vm)
           /\ list_getitem (data_memory vm) src_addr = Ok value)
  \/ (read_bits 0 7 vm = (Ok 68, vm)
      /\ exists offset1 addr1 addr2 base1 operand1 operand2,
           read_bits 7 8 vm = (Ok offset1, vm)
           /\ read_bits 15 26 vm = (Ok addr1, vm)
           /\ read_bits 41 26 vm = (Ok addr2, vm)
           /\ list_getitem (data_memory vm) addr1 = Ok base1
           /\ list_getitem (data_memory vm) (base1 + offset1) = Ok operand1
           /\ list_getitem (data_memory vm) addr2 = Ok operand2
           /\ value = if operand1 >=? operand2 then 1 else 0).

(** A cell value that eleven bits hold. *)
Definition cell_ok (x : Z) : Prop := 0 <= x <= 2047.

(** The scenario as run by the two programs: the three instructions are
    constructed, assembled by [to_binary], loaded into a fresh machine of
    [memory_size] cells and run; the run returns, and [memory[2]] then holds
    [cell2]. *)
Definition scenario_B_outcome (memory_size cell2 : Z) : Prop :=
  exists (i1 i2 i3 : Instruction) (binary : list byte)
         (vm0 : VirtualMachine) (n : Z) (vm : VirtualMachine),
    LoadConstInstruction 10 0 = Ok i1
    /\ LoadConstInstruction 5 1 = Ok i2
    /\ GTEInstruction 0 0 1 2 0 = Ok i3
    /\ to_binary [i1; i2; i3] = Ok binary
    /\ load_program binary (VirtualMachine_init memory_size) = (Ok tt, vm0)
    /\ run vm0 = Some (Ok n, vm)
    /\ list_getitem (data_memory vm) 2 = Ok cell2.

(** The six bytes of [LOAD_CONST 42 3]. *)
Definition load_42_3 : list byte := [x6f; x15; x0c; x00; x00; x00].

(** The same, followed by a byte whose low seven bits are no opcode. *)
Definition load_42_3_then_junk : list byte := load_42_3 ++ [x00].

(** Assembles [instructions] and runs them on a fresh machine of
    [memory_size] cells; [None] when assembling fails or the budget of
    [run] is exhausted. *)
Definition assemble_and_run (memory_size : Z) (instructions : list Instruction)
  : option (Res Z * VirtualMachine) :=
  match to_binary instructions with
  | Ok binary =>
      match load_program binary (VirtualMachine_init memory_size) with
      | (Ok _, vm0) => run vm0
      | (Raise _, _) => None
      end
  | Raise _ => None
  end.

(** ** assembler.py: the textual front end *)

(** The built-ins of [str] and [int] that [parse_line] calls: [line.strip()],
    [line.split()], [token.upper()] and [int(token)].  They are taken as
    given; nothing below depends on what they compute. *)
Record StrBuiltins : Type := {
  py_strip : string -> string;
  py_split : string -> list string;
  py_upper : string -> string;
  py_int : string -> Res Z
}.

(** [line[:line.index('#')]] when ['#' in line], [line] otherwise. *)
Fixpoint cut_comment (line : string) : string :=
  match line with
  | EmptyString => EmptyString
  | String c rest =>
      if Ascii.eqb c "#"%char then EmptyString else String c (cut_comment rest)
  end.

(** Sequencing of calls that may raise. *)
Definition and_then {A B : Type} (r : Res A) (k : A -> Res B) : Res B :=
  match r with
  | Ok a => k a
  | Raise e => Raise e
  end.

(** The [try] block of [parse_line]: the mnemonic selects the constructor,
    the number of arguments is checked before any of them is converted, and
    the conversions run from left to right. *)
Definition parse_tokens (B : StrBuiltins) (mnemonic : string)
    (args : list string) : Res Instruction :=
  if String.eqb mnemonic "LOAD_CONST" then
    match args with
    | [a0; a1] =>
        and_then (py_int B a0) (fun constant =>
        and_then (py_int B a1) (fun address =>
        LoadConstInstruction constant address))
    | _ =>
        Raise (ValueError ("LOAD_CONST требует 2 аргумента, получено "
                             +:+ str (Z.of_nat (length args))))
    end
  else if String.eqb mnemonic "READ_MEM" then
    match args with
    | [a0; a1; a2] =>
        and_then (py_int B a0) (fun offset =>
        and_then (py_int B a1) (fun src_addr =>
        and_then (py_int B a2) (fun dst_addr =>
        ReadMemInstruction offset src_addr dst_addr)))
    | _ =>
        Raise (ValueError ("READ_MEM требует 3 аргумента, получено "
                             +:+ str (Z.of_nat (length args))))
    end
  else if String.eqb mnemonic "WRITE_MEM" then
    match args with
    | [a0; a1] =>
        and_then (py_int B a0) (fun src_addr =>
        and_then (py_int B a1) (fun dst_addr =>
        WriteMemInstruction src_addr dst_addr))
    | _ =>
        Raise (ValueError ("WRITE_MEM требует 2 аргумента, получено "
                             +:+ str (Z.of_nat (length args))))
    end
  else if String.eqb mnemonic "GTE" then
    match args with
    | [a0; a1; a2; a3; a4] =>
        and_then (py_int B a0) (fun offset1 =>
        and_then (py_int B a1) (fun addr1 =>
        and_then (py_int B a2) (fun addr2 =>
        and_then (py_int B a3) (fun res_addr =>
        and_then (py_int B a4) (fun offset2 =>
        GTEInstruction offset1 addr1 addr2 res_addr offset2)))))
    | _ =>
        Raise (ValueError ("GTE требует 5 аргументов, получено "
                             +:+ str (Z.of_nat (length args))))
    end
  else Raise (ValueError ("Неизвестная мнемоника: " +:+ mnemonic)).

(** The [except ValueError] clause of [parse_line]: the message is prefixed
    with the line as it stands after the comment is cut and the blanks are
    stripped. *)
Definition line_error (line : string) (e : exn) : exn :=
  match e with
  | ValueError msg =>
      ValueError ("Ошибка в строке '" +:+ line +:+ "': " +:+ msg)
  | _ => e
  end.

(** [Assembler.parse_line]: [None] for a line without tokens. *)
Definition parse_line (B : StrBuiltins) (line : string)
  : Res (option Instruction) :=
  let line := cut_comment line in
  let line := py_strip B line in
  if String.eqb line "" then Ok None
  else
    match py_split B line with
    | [] => Ok None
    | token :: args =>
        let mnemonic := py_upper B token in
        match parse_tokens B mnemonic args with
        | Ok instr => Ok (Some instr)
        | Raise e => Raise (line_error line e)
        end
    end.

(** [source.split('\n')]: the pieces between newlines, at least one. *)
Fixpoint split_newline (source : string) : list string :=
  match source with
  | EmptyString => [EmptyString]
  | String c rest =>
      if Ascii.eqb c "010"%char then EmptyString :: split_newline rest
      else
        match split_newline rest with
        | line :: lines => String c line :: lines
        | [] => [String c EmptyString]
        end
  end.

(** What a call of [assemble] leaves: its result, the [instructions]
    attribute of the assembler, and the lines printed on [stderr]. *)
Record Assembled : Type := {
  asm_result : Res (list Instruction);
  asm_instructions : list Instruction;
  asm_stderr : list string
}.

(** The loop of [assemble] from line number [line_num] on, with
    [instructions] appended so far. *)
Fixpoint assemble_lines (B : StrBuiltins) (line_num : Z) (lines : list string)
    (instructions : list Instruction) : Assembled :=
  match lines with
  | [] =>
      {| asm_result := Ok instructions;
         asm_instructions := instructions;
         asm_stderr := [] |}
  | line :: rest =>
      match parse_line B line with
      | Ok (Some instr) =>
          assemble_lines B (line_num + 1) rest (instructions ++ [instr])
      | Ok None => assemble_lines B (line_num + 1) rest instructions
      | Raise (ValueError msg) =>
          {| asm_result := Raise (ValueError msg);
             asm_instructions := instructions;
             asm_stderr :=
               ["Ошибка в строке " +:+ str line_num +:+ ": " +:+ msg] |}
      | Raise e =>
          {| asm_result := Raise e;
             asm_instructions := instructions;
             asm_stderr := [] |}
      end
  end.

(** [Assembler.assemble]: the list is reset, then filled line by line,
    numbered from 1. *)
Definition assemble (B : StrBuiltins) (source : string) : Assembled :=
  assemble_lines B 1 (split_newline source) [].

(** ** interpreter.py: the memory dump *)

(** An [xml.etree] element: tag, attributes in the order they were set, and
    sub-elements. *)
Local Unset Elimination Schemes.
Inductive Element : Type :=
| mkElement (tag : string) (attrib : list (string * string))
    (children : list Element).
Local Set Elimination Schemes.

(** The [<cell>] sub-element of one address. *)
Definition cell_element (addr value : Z) : Element :=
  mkElement "cell" [("address", str addr); ("value", str value)] [].

(** The loop of [dump_memory_xml] over [range(addr, addr + count)]: an
    address at or past the end of the memory is skipped, any other is read
    by subscript. *)
Fixpoint dump_cells (memory : list Z) (addr : Z) (count : nat)
  : Res (list Element) :=
  match count with
  | O => Ok []
  | S count' =>
      if addr <? Z.of_nat (length memory) then
        and_then (list_getitem memory addr) (fun value =>
        and_then (dump_cells memory (addr + 1) count') (fun cells =>
        Ok (cell_element addr value :: cells)))
      else dump_cells memory (addr + 1) count'
  end.

(** [dump_memory_xml] up to the element tree it hands to [ET.tostring]; the
    serialisation and the file are not part of it. *)
Definition dump_memory_xml (vm : VirtualMachine) (start_addr end_addr : Z)
  : Res Element :=
  and_then
    (dump_cells (data_memory vm) start_addr (Z.to_nat (end_addr + 1 - start_addr)))
    (fun cells =>
       Ok (mkElement "memory_dump"
             [("start_address", str start_addr); ("end_address", str end_addr)]
             cells)).

(** ** Vocabulary of the further properties *)

(** The byte count of each variant's encoding. *)
Definition byte_length (i : Instruction) : nat :=
  match i with
  | LoadConst _ _ => 6
  | ReadMem _ _ _ => 9
  | WriteMem _ _ => 8
  | GTE _ _ _ _ _ => 13
  end.

(** The size in bytes of the binary of a list of instructions. *)
Definition program_length (instructions : list Instruction) : nat :=
  sum_list_with byte_length instructions.


(** Assembles [instructions] and runs them on the data memory [memory];
    gives the outcome with the data memory and [pc] left. *)
Definition assemble_and_run_on (memory : list Z)
    (instructions : list Instruction) : option (Res Z * list Z * Z) :=
  match to_binary instructions with
  | Ok binary =>
      match run {| data_memory := memory; code_memory := binary; pc := 0 |} with
      | Some (r, vm) => Some (r, data_memory vm, pc vm)
      | None => None
      end
  | Raise _ => None
  end.


(** Stand-ins for the built-ins on the handful of strings the instances
    below use: no blanks to strip, three known lines to split, four known
    numerals. *)
Definition sample_builtins : StrBuiltins :=
  {| py_strip := fun s => s;
     py_split := fun s =>
       if String.eqb s "LOAD_CONST 42 3" then ["LOAD_CONST"; "42"; "3"]
       else if String.eqb s "WRITE_MEM 3 4" then ["WRITE_MEM"; "3"; "4"]
       else if String.eqb s "LOAD_CONST 2048 3" then ["LOAD_CONST"; "2048"; "3"]
       else [];
     py_upper := fun s => s;
     py_int := fun s =>
       if String.eqb s "42" then Ok 42
       else if String.eqb s "3" then Ok 3
       else if String.eqb s "4" then Ok 4
       else if String.eqb s "2048" then Ok 2048
       else Raise (ValueError "invalid literal for int()") |}.

(** ** Bits of a byte buffer *)

Section Bytes.

Lemma byte_to_Z_range (b : byte) : 0 <= byte_to_Z b < 256.
Proof.
  unfold byte_to_Z. pose proof (Byte.to_N_bounded b) as H.
  split; [apply N2Z.is_nonneg|]. lia.
Qed.

Lemma byte_to_of_Z (z : Z) : byte_to_Z (byte_of_Z z) = z mod 256.
Proof.
  unfold byte_to_Z, byte_of_Z.
  assert (Hr : 0 <= z mod 256 < 256) by (apply Z.mod_pos_bound; lia).
  destruct (Byte.of_N (Z.to_N (z mod 256))) as [b|] eqn:E.
  - apply Byte.to_of_N in E. rewrite E. lia.
  - apply Byte.of_N_None_iff in E. lia.
Qed.

Lemma byte_of_to_Z (b : byte) : byte_of_Z (byte_to_Z b) = b.
Proof.
  unfold byte_of_Z. pose proof (byte_to_Z_range b) as Hr.
  rewrite Z.mod_small by lia. unfold byte_to_Z.
  rewrite N2Z.id, Byte.of_to_N. reflexivity.
Qed.

Lemma length_le_bytes (n : nat) (v : Z) : length (le_bytes n v) = n.
Proof. revert v. induction n as [|n IH]; intros v; simpl; [|rewrite IH]; reflexivity. Qed.

Lemma int_from_bytes_range (bs : list byte) :
  0 <= int_from_bytes bs < 2 ^ (8 * Z.of_nat (length bs)).
Proof.
  induction bs as [|b bs IH]; simpl int_from_bytes.
  - simpl. lia.
  - pose proof (byte_to_Z_range b) as Hb.
    replace (8 * Z.of_nat (length (b :: bs))) with (8 + 8 * Z.of_nat (length bs))
      by (simpl length; lia).
    rewrite Z.pow_add_r by lia. change (2 ^ 8) with 256. nia.
Qed.

(** A byte glued under an integer: the low eight bits are the byte's. *)
Lemma testbit_cons (b r k : Z) :
  0 <= b < 256 -> 0 <= k ->
  Z.testbit (b + 256 * r) k = if k <? 8 then Z.testbit b k else Z.testbit r (k - 8).
Proof.
  intros Hb Hk. destruct (Z.ltb_spec k 8) as [Hlt|Hge].
  - rewrite <- (Z.mod_pow2_bits_low (b + 256 * r) 8 k) by lia.
    change (2 ^ 8) with 256.
    replace (b + 256 * r) with (b + r * 256) by lia.
    rewrite Z.mod_add by lia.
    rewrite Z.mod_small by lia. reflexivity.
  - replace k with ((k - 8) + 8) at 1 by lia.
    rewrite <- Z.div_pow2_bits by lia. change (2 ^ 8) with 256.
    replace (b + 256 * r) with (r * 256 + b) by lia.
    rewrite Z.div_add_l by lia.
    rewrite (Z.div_small b) by lia. rewrite Z.add_0_r. reflexivity.
Qed.

Lemma buffer_bit_nil (k : Z) : buffer_bit [] k = false.
Proof. reflexivity. Qed.

Lemma buffer_bit_cons (b : byte) (bs : list byte) (k : Z) :
  0 <= k ->
  buffer_bit (b :: bs) k =
    if k <? 8 then Z.testbit (byte_to_Z b) k else buffer_bit bs (k - 8).
Proof.
  intros Hk. unfold buffer_bit. destruct (Z.ltb_spec k 8) as [Hlt|Hge].
  - rewrite Z.div_small, Z.mod_small by lia. reflexivity.
  - assert (Hd : k / 8 = (k - 8) / 8 + 1)
      by (rewrite <- Z.div_add by lia; f_equal; lia).
    assert (Hm : k mod 8 = (k - 8) mod 8)
      by (rewrite <- (Z.mod_add (k - 8) 1 8) by lia; f_equal; lia).
    rewrite Hd, Hm.
    assert (0 <= (k - 8) / 8) by (apply Z.div_pos; lia).
    replace (Z.to_nat ((k - 8) / 8 + 1)) with (S (Z.to_nat ((k - 8) / 8))) by lia.
    reflexivity.
Qed.

(** [int.from_bytes] is the buffer's bits, bit for bit. *)
Lemma testbit_int_from_bytes (bs : list byte) (k : Z) :
  0 <= k -> Z.testbit (int_from_bytes bs) k = buffer_bit bs k.
Proof.
  revert k. induction bs as [|b bs IH]; intros k Hk.
  - simpl. rewrite Z.bits_0. reflexivity.
  - simpl int_from_bytes. rewrite testbit_cons, buffer_bit_cons
      by (try apply byte_to_Z_range; lia).
    destruct (k <? 8) eqn:E; [reflexivity|].
    apply IH. apply Z.ltb_ge in E. lia.
Qed.

(** [int.to_bytes] lays the integer's low bits out in the buffer. *)
Lemma buffer_bit_le_bytes (n : nat) (v k : Z) :
  0 <= k ->
  buffer_bit (le_bytes n v) k = (k <? 8 * Z.of_nat n) && Z.testbit v k.
Proof.
  revert v k. induction n as [|n IH]; intros v k Hk.
  - simpl le_bytes. rewrite buffer_bit_nil.
    destruct (Z.ltb_spec k (8 * Z.of_nat 0)); [lia|reflexivity].
  - simpl le_bytes. rewrite buffer_bit_cons by lia.
    rewrite byte_to_of_Z, Z.mod_mod by lia.
    destruct (Z.ltb_spec k 8) as [Hlt|Hge].
    + change 256 with (2 ^ 8). rewrite Z.mod_pow2_bits_low by lia.
      destruct (Z.ltb_spec k (8 * Z.of_nat (S n))); [reflexivity|lia].
    + rewrite IH by lia. change 256 with (2 ^ 8).
      rewrite Z.div_pow2_bits by lia. replace (k - 8 + 8) with k by lia.
      f_equal.
      destruct (Z.ltb_spec (k - 8) (8 * Z.of_nat n));
        destruct (Z.ltb_spec k (8 * Z.of_nat (S n))); try reflexivity; lia.
Qed.

Lemma int_from_le_bytes (n : nat) (v : Z) :
  0 <= v < 2 ^ (8 * Z.of_nat n) -> int_from_bytes (le_bytes n v) = v.
Proof.
  intros Hv. apply Z.bits_inj'. intros k Hk.
  rewrite testbit_int_from_bytes, buffer_bit_le_bytes by lia.
  destruct (Z.ltb_spec k (8 * Z.of_nat n)) as [Hlt|Hge]; [reflexivity|].
  simpl. symmetry.
  destruct (Z.eq_dec v 0) as [->|Hnz]; [apply Z.bits_0|].
  apply Z.bits_above_log2; [lia|].
  apply Z.lt_le_trans with (8 * Z.of_nat n); [|lia].
  apply Z.log2_lt_pow2; lia.
Qed.

(** A buffer sitting between a prefix and a suffix keeps its bits, shifted
    by the size of the prefix. *)
Lemma buffer_bit_app_mid (pre mid post : list byte) (k : Z) :
  0 <= k < 8 * Z.of_nat (length mid) ->
  buffer_bit (pre ++ mid ++ post) (8 * Z.of_nat (length pre) + k)
  = buffer_bit mid k.
Proof.
  intros Hk. unfold buffer_bit.
  replace (8 * Z.of_nat (length pre) + k) with (k + Z.of_nat (length pre) * 8) by lia.
  rewrite Z.div_add, Z.mod_add by lia.
  assert (0 <= k / 8 < Z.of_nat (length mid))
    by (split; [apply Z.div_pos; lia | apply Z.div_lt_upper_bound; lia]).
  replace (Z.to_nat (k / 8 + Z.of_nat (length pre)))
    with (length pre + Z.to_nat (k / 8))%nat by lia.
  rewrite lookup_app_r by lia.
  replace (length pre + Z.to_nat (k / 8) - length pre)%nat
    with (Z.to_nat (k / 8)) by lia.
  rewrite lookup_app_l by lia. reflexivity.
Qed.

(** The bits of a slice [buf[lo:hi]] with non-negative bounds. *)
Lemma buffer_bit_slice (buf : list byte) (lo hi k : Z) :
  0 <= lo -> 0 <= hi -> 0 <= k ->
  buffer_bit (py_slice buf lo hi) k
  = (k <? 8 * (hi - lo)) && buffer_bit buf (8 * lo + k).
Proof.
  intros Hlo Hhi Hk. unfold buffer_bit, py_slice, slice_bound.
  destruct (Z.ltb_spec lo 0); [lia|]. destruct (Z.ltb_spec hi 0); [lia|].
  replace (8 * lo + k) with (k + lo * 8) by lia.
  rewrite Z.div_add, Z.mod_add by lia.
  assert (Hq : 0 <= k / 8) by (apply Z.div_pos; lia).
  set (n := Z.of_nat (length buf)).
  destruct (Z.ltb_spec k (8 * (hi - lo))) as [Hin|Hout]; simpl andb.
  - assert (k / 8 < hi - lo) by (apply Z.div_lt_upper_bound; lia).
    destruct (Z.lt_ge_cases (k / 8 + lo) n) as [Hlt|Hge].
    + rewrite lookup_take_lt by lia. rewrite lookup_drop.
      replace (Z.to_nat (Z.min lo n) + Z.to_nat (k / 8))%nat
        with (Z.to_nat (k / 8 + lo)) by lia.
      reflexivity.
    + rewrite (proj2 (lookup_ge_None buf (Z.to_nat (k / 8 + lo)))) by (subst n; lia).
      destruct (take _ _ !! _) eqn:E; [|reflexivity].
      apply lookup_take_Some in E as [E _]. rewrite lookup_drop in E.
      apply lookup_lt_Some in E. subst n. lia.
  - assert (hi - lo <= k / 8) by (apply Z.div_le_lower_bound; lia).
    rewrite lookup_take_ge by lia. reflexivity.
Qed.

End Bytes.

(** ** [read_bits] *)

Section ReadBits.

Lemma mask_ones (length : Z) : Z.shiftl 1 length - 1 = Z.ones length.
Proof. unfold Z.ones. lia. Qed.

Lemma testbit_above (x w j : Z) :
  0 <= x < 2 ^ w -> w <= j -> Z.testbit x j = false.
Proof.
  intros Hx Hj. destruct (Z.eq_dec x 0) as [->|Hnz]; [apply Z.bits_0|].
  apply Z.bits_above_log2; [lia|].
  destruct (Z.lt_ge_cases w 0) as [Hneg|Hw].
  - rewrite Z.pow_neg_r in Hx by lia. lia.
  - apply Z.lt_le_trans with w; [|lia]. apply Z.log2_lt_pow2; lia.
Qed.

(** The value [read_bits] returns, bit by bit, as soon as the first byte it
    spans has a non-negative index, whatever the buffer holds: bytes past the
    end of the buffer read as zero. *)
Lemma read_bits_bits (vm : VirtualMachine) (start_bit length : Z) :
  0 <= pc vm + start_bit / 8 -> 0 <= start_bit -> 0 <= length ->
  exists v,
    read_bits start_bit length vm = (Ok v, vm)
    /\ 0 <= v < 2 ^ length
    /\ forall i, 0 <= i < length ->
         Z.testbit v i = buffer_bit (code_memory vm) (8 * pc vm + start_bit + i).
Proof.
  intros Hpc Hs Hl. unfold read_bits.
  destruct (Z.ltb_spec length 0); [lia|].
  rewrite mask_ones. eexists. split; [reflexivity|]. split.
  - rewrite Z.land_ones by lia. apply Z.mod_pos_bound. apply Z.pow_pos_nonneg; lia.
  - intros i Hi.
    assert (Hsb : 0 <= start_bit / 8) by (apply Z.div_pos; lia).
    assert (Hoff : 0 <= start_bit mod 8 < 8) by (apply Z.mod_pos_bound; lia).
    assert (Heb : start_bit + length - 1 < 8 * ((start_bit + length - 1) / 8 + 1)).
    { pose proof (Z.mod_pos_bound (start_bit + length - 1) 8).
      pose proof (Z.div_mod (start_bit + length - 1) 8). lia. }
    pose proof (Z.div_mod start_bit 8) as Hdm.
    rewrite Z.land_spec, Z.shiftr_spec by lia.
    rewrite Z.ones_spec_low, andb_true_r by lia.
    rewrite testbit_int_from_bytes by lia.
    rewrite buffer_bit_slice by lia.
    destruct (Z.ltb_spec (i + start_bit mod 8)
                (8 * (pc vm + ((start_bit + length - 1) / 8 + 1)
                      - (pc vm + start_bit / 8)))); [|lia].
    simpl andb. f_equal. lia.
Qed.

(** Reading a field out of an encoding [le_bytes n value] placed at [pc]:
    the result is the field of [value] itself. *)
Lemma read_bits_encoded (pre post : list byte) (n : nat) (value : Z)
      (mem : list Z) (start_bit length : Z) :
  0 <= start_bit -> 0 <= length -> start_bit + length <= 8 * Z.of_nat n ->
  let vm := {| data_memory := mem;
               code_memory := pre ++ le_bytes n value ++ post;
               pc := Z.of_nat (List.length pre) |} in
  read_bits start_bit length vm
  = (Ok (Z.land (Z.shiftr value start_bit) (Z.ones length)), vm).
Proof.
  intros Hs Hl Hfit vm.
  destruct (read_bits_bits vm start_bit length) as (v & Hrd & Hv & Hbits);
    [simpl; pose proof (Z.div_pos start_bit 8); lia | lia | lia |].
  rewrite Hrd. f_equal. f_equal. apply Z.bits_inj'. intros i Hi.
  rewrite Z.land_spec, Z.shiftr_spec by lia.
  destruct (Z.lt_ge_cases i length) as [Hlt|Hge].
  - rewrite Z.ones_spec_low, andb_true_r by lia.
    rewrite Hbits by lia. simpl code_memory. simpl pc.
    replace (8 * Z.of_nat (List.length pre) + start_bit + i)
      with (8 * Z.of_nat (List.length pre) + (start_bit + i)) by lia.
    rewrite buffer_bit_app_mid by (rewrite length_le_bytes; lia).
    rewrite buffer_bit_le_bytes by lia.
    destruct (Z.ltb_spec (start_bit + i) (8 * Z.of_nat n)); [|lia].
    simpl. f_equal. lia.
  - rewrite Z.ones_spec_high, andb_false_r by lia.
    apply testbit_above with length; lia.
Qed.

End ReadBits.

(** C4. For every buffer, every [pc], [start_bit >= 0] and [length >= 1]
    whose spanned bytes lie inside the buffer (the indices from
    [pc + start_bit / 8] to [pc + (start_bit + length - 1) / 8]), [read_bits]
    returns without error an unsigned integer below [2^length] whose bit [i],
    for [0 <= i < length], is bit number [8*pc + start_bit + i] of the buffer
    in little-endian order: bit [(8*pc + start_bit + i) mod 8] of the byte
    present at index [(8*pc + start_bit + i) / 8].  Neither byte alignment
    nor any bound on [length] is assumed. *)
Theorem read_bits_extracts_buffer_bits
    (vm : VirtualMachine) (start_bit length : Z) :
  0 <= start_bit -> 1 <= length ->
  0 <= pc vm + start_bit / 8 ->
  pc vm + (start_bit + length - 1) / 8 < Z.of_nat (List.length (code_memory vm)) ->
  exists v,
    read_bits start_bit length vm = (Ok v, vm)
    /\ 0 <= v < 2 ^ length
    /\ forall i, 0 <= i < length ->
         exists b,
           code_memory vm !! Z.to_nat ((8 * pc vm + start_bit + i) / 8) = Some b
           /\ Z.testbit v i
              = Z.testbit (byte_to_Z b) ((8 * pc vm + start_bit + i) mod 8).
Proof.
  intros Hs Hl Hlo Hin.
  destruct (read_bits_bits vm start_bit length) as (v & Hrd & Hv & Hbits); try lia.
  pose proof (Z.div_mod start_bit 8) as Hdm.
  pose proof (Z.mod_pos_bound start_bit 8) as Hmb.
  exists v. split; [exact Hrd|]. split; [exact Hv|].
  intros i Hi. specialize (Hbits i Hi). unfold buffer_bit in Hbits.
  assert (Hq : 0 <= (8 * pc vm + start_bit + i) / 8
               < Z.of_nat (List.length (code_memory vm))).
  { split; [apply Z.div_pos; lia|].
    replace (8 * pc vm + start_bit + i) with ((start_bit + i) + pc vm * 8) by lia.
    rewrite Z.div_add by lia.
    assert ((start_bit + i) / 8 <= (start_bit + length - 1) / 8)
      by (apply Z.div_le_mono; lia).
    lia. }
  destruct (code_memory vm !! Z.to_nat ((8 * pc vm + start_bit + i) / 8))
    as [b|] eqn:E.
  - exists b. split; [reflexivity|exact Hbits].
  - apply lookup_ge_None in E. lia.
Qed.

(** ** Packing fields into one integer *)

Section Fields.

Lemma field_lor (a b s w : Z) :
  Z.land (Z.shiftr (Z.lor a b) s) (Z.ones w)
  = Z.lor (Z.land (Z.shiftr a s) (Z.ones w)) (Z.land (Z.shiftr b s) (Z.ones w)).
Proof. rewrite Z.shiftr_lor, Z.land_lor_distr_l. reflexivity. Qed.

(** The field read at the position it was shifted to. *)
Lemma field_same (x s w : Z) :
  0 <= x < 2 ^ w -> 0 <= s ->
  Z.land (Z.shiftr (Z.shiftl x s) s) (Z.ones w) = x.
Proof.
  intros Hx Hs. rewrite Z.shiftr_shiftl_l by lia.
  rewrite Z.sub_diag, Z.shiftl_0_r.
  destruct (Z.lt_ge_cases w 0) as [Hneg|Hw].
  - rewrite Z.pow_neg_r in Hx by lia. lia.
  - rewrite Z.land_ones by lia. apply Z.mod_small. lia.
Qed.

(** A field that starts after the window read. *)
Lemma field_above (x p s w : Z) :
  0 <= s -> 0 <= w -> s + w <= p ->
  Z.land (Z.shiftr (Z.shiftl x p) s) (Z.ones w) = 0.
Proof.
  intros Hs Hw Hp. rewrite Z.shiftr_shiftl_l by lia.
  apply Z.bits_inj'. intros i Hi. rewrite Z.land_spec, Z.bits_0.
  destruct (Z.lt_ge_cases i w) as [Hlt|Hge].
  - rewrite Z.shiftl_spec by lia. rewrite Z.testbit_neg_r by lia. reflexivity.
  - rewrite Z.ones_spec_high by lia. apply andb_false_r.
Qed.

(** A field that ends before the window read. *)
Lemma field_below (x wx p s w : Z) :
  0 <= x < 2 ^ wx -> 0 <= p -> 0 <= wx -> p + wx <= s ->
  Z.land (Z.shiftr (Z.shiftl x p) s) (Z.ones w) = 0.
Proof.
  intros Hx Hp Hwx Hs. rewrite Z.shiftr_shiftl_r by lia.
  rewrite Z.shiftr_div_pow2 by lia.
  rewrite Z.div_small; [reflexivity|].
  split; [lia|]. apply Z.lt_le_trans with (2 ^ wx); [lia|].
  apply Z.pow_le_mono_r; lia.
Qed.

Lemma lor_range (a b n : Z) :
  0 <= a < 2 ^ n -> 0 <= b < 2 ^ n -> 0 <= Z.lor a b < 2 ^ n.
Proof.
  intros Ha Hb. destruct (Z.lt_ge_cases n 0) as [Hneg|Hn].
  - rewrite Z.pow_neg_r in Ha by lia. lia.
  - split; [apply Z.lor_nonneg; lia|].
    replace (Z.lor a b) with (Z.lor a b mod 2 ^ n).
    + apply Z.mod_pos_bound. apply Z.pow_pos_nonneg; lia.
    + rewrite <- Z.land_ones, Z.land_lor_distr_l, !Z.land_ones by lia.
      rewrite !Z.mod_small by lia. reflexivity.
Qed.

Lemma shiftl_range (x w s n : Z) :
  0 <= x < 2 ^ w -> 0 <= w -> 0 <= s -> w + s <= n -> 0 <= Z.shiftl x s < 2 ^ n.
Proof.
  intros Hx Hw Hs Hn. rewrite Z.shiftl_mul_pow2 by lia.
  assert (0 < 2 ^ s) by (apply Z.pow_pos_nonneg; lia).
  split; [nia|].
  apply Z.lt_le_trans with (2 ^ w * 2 ^ s); [nia|].
  rewrite <- Z.pow_add_r by lia. apply Z.pow_le_mono_r; lia.
Qed.

End Fields.

Section Construction.

Lemma out_of_range_false (v bound : Z) :
  out_of_range v bound = false <-> 0 <= v < bound.
Proof.
  unfold out_of_range. rewrite negb_false_iff, andb_true_iff.
  rewrite Z.leb_le, Z.ltb_lt. tauto.
Qed.

Lemma out_of_range_true (v bound : Z) :
  out_of_range v bound = true <-> ~ (0 <= v < bound).
Proof.
  rewrite <- out_of_range_false. destruct (out_of_range v bound); split; congruence.
Qed.

Ltac split_checks :=
  repeat match goal with
    | H : context [if out_of_range ?v ?b then _ else _] |- _ =>
        let E := fresh "E" in
        destruct (out_of_range v b) eqn:E; [discriminate H|];
        apply out_of_range_false in E
    end.

Lemma constructed_in_range (i : Instruction) :
  constructed i -> operands_in_range i.
Proof.
  intros [(c & a & H) | [(o & s & d & H) | [(s & d & H) | (o1 & a1 & a2 & r & o2 & H)]]].
  - unfold LoadConstInstruction in H. split_checks.
    injection H as <-. simpl. lia.
  - unfold ReadMemInstruction in H. split_checks.
    injection H as <-. simpl. lia.
  - unfold WriteMemInstruction in H. split_checks.
    injection H as <-. simpl. lia.
  - unfold GTEInstruction in H. split_checks.
    injection H as <-. simpl. lia.
Qed.

Ltac pass_check :=
  match goal with
  | |- context [if out_of_range ?v ?b then _ else _] =>
      rewrite (proj2 (out_of_range_false v b)) by lia
  end.

Lemma in_range_constructed (i : Instruction) :
  operands_in_range i -> constructed i.
Proof.
  destruct i as [c a | o s d | s d | o1 a1 a2 r o2]; simpl; intros H.
  - left. exists c, a. unfold LoadConstInstruction.
    repeat pass_check. reflexivity.
  - right; left. exists o, s, d. unfold ReadMemInstruction.
    repeat pass_check. reflexivity.
  - right; right; left. exists s, d. unfold WriteMemInstruction.
    repeat pass_check. reflexivity.
  - right; right; right. exists o1, a1, a2, r, o2. unfold GTEInstruction.
    repeat pass_check. reflexivity.
Qed.

End Construction.

(** ** [to_bytes] on in-range operands *)

Section Encoding.

Lemma int_to_bytes_fits (value : Z) (n : nat) :
  0 <= value < 2 ^ (8 * Z.of_nat n) ->
  int_to_bytes value n = Ok (le_bytes n value).
Proof.
  intros Hv. unfold int_to_bytes.
  destruct (Z.ltb_spec value 0); [lia|].
  destruct (Z.leb_spec (2 ^ (8 * Z.of_nat n)) value); [lia|reflexivity].
Qed.

Ltac packed_range :=
  repeat (apply lor_range);
  first [ lia
        | eapply shiftl_range; [eassumption | lia | lia | lia] ].

(** The packed integer fits the byte count of its variant, so
    [int.to_bytes] does not overflow. *)
Lemma to_bytes_in_range (i : Instruction) :
  operands_in_range i ->
  match i with
  | LoadConst constant address =>
      to_bytes i
      = Ok (le_bytes 6 (Z.lor (Z.lor 111 (Z.shiftl constant 7))
                          (Z.shiftl address 18)))
  | ReadMem offset src_addr dst_addr =>
      to_bytes i
      = Ok (le_bytes 9 (Z.lor (Z.lor (Z.lor 40 (Z.shiftl offset 7))
                                 (Z.shiftl src_addr 15))
                          (Z.shiftl dst_addr 41)))
  | WriteMem src_addr dst_addr =>
      to_bytes i
      = Ok (le_bytes 8 (Z.lor (Z.lor 101 (Z.shiftl src_addr 7))
                          (Z.shiftl dst_addr 33)))
  | GTE offset1 addr1 addr2 res_addr offset2 =>
      to_bytes i
      = Ok (le_bytes 13
              (Z.lor (Z.lor (Z.lor (Z.lor (Z.lor 68 (Z.shiftl offset1 7))
                                      (Z.shiftl addr1 15))
                               (Z.shiftl addr2 41))
                        (Z.shiftl res_addr 67))
                 (Z.shiftl offset2 93)))
  end.
Proof.
  destruct i as [c a | o s d | s d | o1 a1 a2 r o2]; simpl operands_in_range;
    intros H; unfold to_bytes, opcode; cbv zeta.
  - destruct H as (Hc & Ha). apply int_to_bytes_fits.
    change (8 * Z.of_nat 6) with 48. packed_range.
  - destruct H as (Ho & Hs & Hd). apply int_to_bytes_fits.
    change (8 * Z.of_nat 9) with 72. packed_range.
  - destruct H as (Hs & Hd). apply int_to_bytes_fits.
    change (8 * Z.of_nat 8) with 64. packed_range.
  - destruct H as (Ho1 & Ha1 & Ha2 & Hr & Ho2). apply int_to_bytes_fits.
    change (8 * Z.of_nat 13) with 104. packed_range.
Qed.

End Encoding.

(** C5. Whatever operands it was constructed with, a validly constructed
    instruction is serialised by [to_bytes] without error, into exactly the
    byte count of its variant: 6 for LoadConst, 13 for Gte, 8 for WriteMem,
    9 for ReadMem. *)
Theorem to_bytes_fixed_length (i : Instruction) :
  constructed i ->
  exists bs,
    to_bytes i = Ok bs
    /\ List.length bs
       = match i with
         | LoadConst _ _ => 6%nat
         | GTE _ _ _ _ _ => 13%nat
         | WriteMem _ _ => 8%nat
         | ReadMem _ _ _ => 9%nat
         end.
Proof.
  intros Hc. apply constructed_in_range in Hc.
  pose proof (to_bytes_in_range i Hc) as Hb.
  destruct i; rewrite Hb; eexists; (split; [reflexivity|apply length_le_bytes]).
Qed.

(** ** Encoding followed by field reads *)

Ltac closed_field :=
  repeat match goal with
    | |- context [Z.land (Z.shiftr (Zpos ?p) ?s) (Z.ones ?w)] =>
        let t := eval vm_compute in (Z.land (Z.shiftr (Zpos p) s) (Z.ones w)) in
        change (Z.land (Z.shiftr (Zpos p) s) (Z.ones w)) with t
    end.

Ltac extract_field :=
  rewrite ?field_lor; closed_field;
  repeat first
    [ rewrite field_same by lia
    | rewrite field_above by lia
    | erewrite field_below by (first [eassumption | lia]) ];
  rewrite ?Z.lor_0_r, ?Z.lor_0_l; reflexivity.

Ltac read_field :=
  rewrite read_bits_encoded by (simpl; lia);
  f_equal; f_equal; extract_field.

(** C1. For each of the four variants and all operand values within their
    declared widths, [to_bytes] succeeds, and with the encoding placed
    anywhere in an instruction buffer and [pc] at its first byte, [read_bits]
    at the bit offsets and widths of the layout table returns the variant's
    opcode and each operand unchanged. *)
Theorem encode_then_read_bits_roundtrip
    (i : Instruction) (pre post : list byte) (mem : list Z) :
  operands_in_range i ->
  exists bs,
    to_bytes i = Ok bs
    /\ reads_back i {| data_memory := mem;
                       code_memory := pre ++ bs ++ post;
                       pc := Z.of_nat (List.length pre) |}.
Proof.
  intros Hr. pose proof (to_bytes_in_range i Hr) as Hb.
  destruct i as [c a | o s d | s d | o1 a1 a2 r o2]; simpl in Hr;
    rewrite Hb; eexists; (split; [reflexivity|]); unfold reads_back.
  - destruct Hr as (Hc & Ha). repeat split; read_field.
  - destruct Hr as (Ho & Hs & Hd). repeat split; read_field.
  - destruct Hr as (Hs & Hd). repeat split; read_field.
  - destruct Hr as (Ho1 & Ha1 & Ha2 & Hres & Ho2). repeat split; read_field.
Qed.

(** The thirteen bytes of a Gte and the six fields [execute_gte] decodes from
    them. *)
Lemma gte_encoding_fields
    (pre post : list byte) (mem : list Z)
    (offset1 addr1 addr2 res_addr offset2 : Z) :
  operands_in_range (GTE offset1 addr1 addr2 res_addr offset2) ->
  exists bs,
    to_bytes (GTE offset1 addr1 addr2 res_addr offset2) = Ok bs
    /\ List.length bs = 13%nat
    /\ reads_back (GTE offset1 addr1 addr2 res_addr offset2)
         {| data_memory := mem;
            code_memory := pre ++ bs ++ post;
            pc := Z.of_nat (List.length pre) |}.
Proof.
  intros Hr. pose proof (to_bytes_in_range _ Hr) as Hb. cbv beta iota in Hb.
  simpl in Hr. destruct Hr as (Ho1 & Ha1 & Ha2 & Hres & Ho2).
  eexists. split; [exact Hb|]. split; [apply length_le_bytes|].
  unfold reads_back. repeat split; read_field.
Qed.

(** ** Range checks of the constructors *)

Ltac run_checks :=
  repeat match goal with
    | |- context [if out_of_range ?v ?b then _ else _] =>
        first [ rewrite (proj2 (out_of_range_false v b)) by lia
              | rewrite (proj2 (out_of_range_true v b)) by lia ];
        cbv iota
    end.

Ltac case_checks :=
  repeat match goal with
    | |- context [if out_of_range ?v ?b then _ else _] =>
        let E := fresh "E" in
        destruct (out_of_range v b) eqn:E;
        [ apply out_of_range_true in E; right; split; [lia | eexists; reflexivity]
        | apply out_of_range_false in E ]
    end.

Lemma LoadConstInstruction_checks (constant address : Z) :
  accepts_or_rejects (LoadConstInstruction constant address)
    (LoadConst constant address).
Proof.
  unfold accepts_or_rejects, LoadConstInstruction. simpl operands_in_range.
  case_checks. left. split; [lia | reflexivity].
Qed.

Lemma ReadMemInstruction_checks (offset src_addr dst_addr : Z) :
  accepts_or_rejects (ReadMemInstruction offset src_addr dst_addr)
    (ReadMem offset src_addr dst_addr).
Proof.
  unfold accepts_or_rejects, ReadMemInstruction. simpl operands_in_range.
  case_checks. left. split; [lia | reflexivity].
Qed.

Lemma WriteMemInstruction_checks (src_addr dst_addr : Z) :
  accepts_or_rejects (WriteMemInstruction src_addr dst_addr)
    (WriteMem src_addr dst_addr).
Proof.
  unfold accepts_or_rejects, WriteMemInstruction. simpl operands_in_range.
  case_checks. left. split; [lia | reflexivity].
Qed.

Lemma GTEInstruction_checks (offset1 addr1 addr2 res_addr offset2 : Z) :
  accepts_or_rejects (GTEInstruction offset1 addr1 addr2 res_addr offset2)
    (GTE offset1 addr1 addr2 res_addr offset2).
Proof.
  unfold accepts_or_rejects, GTEInstruction. simpl operands_in_range.
  case_checks. left. split; [lia | reflexivity].
Qed.

(** C6. With the other operands in range ([c] an 11-bit constant, [o], [o']
    8-bit offsets, [a], [a'], [a''] 26-bit addresses), every constructor
    called with one operand equal to [2^width] (2048, 256, 67108864) raises
    the range error naming that value and the allowed range, and called with
    [2^width - 1] returns the instruction.  Moreover, for arbitrary operands
    a constructor either returns the object holding exactly the operands it
    was given, all of them in range, or raises a [ValueError]: no
    out-of-range operand is truncated or wrapped into an instruction. *)
Theorem range_enforcement (c o o' a a' a'' : Z) :
  0 <= c < 2 ^ 11 -> 0 <= o < 2 ^ 8 -> 0 <= o' < 2 ^ 8 ->
  0 <= a < 2 ^ 26 -> 0 <= a' < 2 ^ 26 -> 0 <= a'' < 2 ^ 26 ->
  (LoadConstInstruction 2048 a = range_error "Константа" 2048 2047
   /\ LoadConstInstruction 2047 a = Ok (LoadConst 2047 a)
   /\ LoadConstInstruction c 67108864 = range_error "Адрес" 67108864 67108863
   /\ LoadConstInstruction c 67108863 = Ok (LoadConst c 67108863))
  /\ (ReadMemInstruction 256 a a' = range_error "Смещение" 256 255
      /\ ReadMemInstruction 255 a a' = Ok (ReadMem 255 a a')
      /\ ReadMemInstruction o 67108864 a' = range_error "Адрес" 67108864 67108863
      /\ ReadMemInstruction o 67108863 a' = Ok (ReadMem o 67108863 a')
      /\ ReadMemInstruction o a 67108864 = range_error "Адрес" 67108864 67108863
      /\ ReadMemInstruction o a 67108863 = Ok (ReadMem o a 67108863))
  /\ (WriteMemInstruction 67108864 a' = range_error "Адрес" 67108864 67108863
      /\ WriteMemInstruction 67108863 a' = Ok (WriteMem 67108863 a')
      /\ WriteMemInstruction a 67108864 = range_error "Адрес" 67108864 67108863
      /\ WriteMemInstruction a 67108863 = Ok (WriteMem a 67108863))
  /\ (GTEInstruction 256 a a' a'' o' = range_error "Смещение1" 256 255
      /\ GTEInstruction 255 a a' a'' o' = Ok (GTE 255 a a' a'' o')
      /\ GTEInstruction o 67108864 a' a'' o'
         = range_error "Адрес1" 67108864 67108863
      /\ GTEInstruction o 67108863 a' a'' o' = Ok (GTE o 67108863 a' a'' o')
      /\ GTEInstruction o a 67108864 a'' o'
         = range_error "Адрес2" 67108864 67108863
      /\ GTEInstruction o a 67108863 a'' o' = Ok (GTE o a 67108863 a'' o')
      /\ GTEInstruction o a a' 67108864 o'
         = range_error "Адрес результата" 67108864 67108863
      /\ GTEInstruction o a a' 67108863 o' = Ok (GTE o a a' 67108863 o')
      /\ GTEInstruction o a a' a'' 256 = range_error "Смещение2" 256 255
      /\ GTEInstruction o a a' a'' 255 = Ok (GTE o a a' a'' 255))
  /\ (forall constant address,
        accepts_or_rejects (LoadConstInstruction constant address)
          (LoadConst constant address))
  /\ (forall offset src_addr dst_addr,
        accepts_or_rejects (ReadMemInstruction offset src_addr dst_addr)
          (ReadMem offset src_addr dst_addr))
  /\ (forall src_addr dst_addr,
        accepts_or_rejects (WriteMemInstruction src_addr dst_addr)
          (WriteMem src_addr dst_addr))
  /\ (forall offset1 addr1 addr2 res_addr offset2,
        accepts_or_rejects (GTEInstruction offset1 addr1 addr2 res_addr offset2)
          (GTE offset1 addr1 addr2 res_addr offset2)).
Proof.
  intros Hc Ho Ho' Ha Ha' Ha''.
  repeat match goal with |- _ /\ _ => split end;
    try (unfold LoadConstInstruction, ReadMemInstruction, WriteMemInstruction,
           GTEInstruction; run_checks; reflexivity).
  - exact LoadConstInstruction_checks.
  - exact ReadMemInstruction_checks.
  - exact WriteMemInstruction_checks.
  - exact GTEInstruction_checks.
Qed.

(** ** Running the monad *)

Section Monad.

Context {A B : Type}.

Lemma bind_ok (m : M A) (k : A -> M B) (vm vm1 : VirtualMachine) (a : A) :
  m vm = (Ok a, vm1) -> bind m k vm = k a vm1.
Proof. intros H. unfold bind. rewrite H. reflexivity. Qed.

Lemma bind_raise (m : M A) (k : A -> M B) (vm vm1 : VirtualMachine) (e : exn) :
  m vm = (Raise e, vm1) -> bind m k vm = (Raise e, vm1).
Proof. intros H. unfold bind. rewrite H. reflexivity. Qed.

End Monad.

Section Primitives.

Context {B : Type}.

Lemma read_bits_pure (start_bit length : Z) (vm : VirtualMachine) :
  0 <= length -> read_bits start_bit length vm = (Ok (bits_at vm start_bit length), vm).
Proof.
  intros Hl. unfold read_bits, bits_at.
  destruct (Z.ltb_spec length 0); [lia|reflexivity].
Qed.

Lemma bits_at_range (vm : VirtualMachine) (start_bit length : Z) :
  0 <= length -> 0 <= bits_at vm start_bit length < 2 ^ length.
Proof.
  intros Hl. unfold bits_at. rewrite mask_ones, Z.land_ones by lia.
  apply Z.mod_pos_bound. apply Z.pow_pos_nonneg; lia.
Qed.

Lemma bind_read_bits (start_bit length : Z) (k : Z -> M B) (vm : VirtualMachine) :
  0 <= length ->
  bind (read_bits start_bit length) k vm = k (bits_at vm start_bit length) vm.
Proof. intros Hl. apply bind_ok. apply read_bits_pure. exact Hl. Qed.

Lemma bind_mem_get (i : Z) (k : Z -> M B) (vm : VirtualMachine) :
  bind (mem_get i) k vm
  = match list_getitem (data_memory vm) i with
    | Ok v => k v vm
    | Raise e => (Raise e, vm)
    end.
Proof. unfold bind, mem_get. destruct (list_getitem _ _); reflexivity. Qed.

Lemma bind_mem_set (i v : Z) (k : unit -> M B) (vm : VirtualMachine) :
  bind (mem_set i v) k vm
  = match list_setitem (data_memory vm) i v with
    | Ok l => k tt (advance vm l 0)
    | Raise e => (Raise e, vm)
    end.
Proof.
  unfold bind, mem_set, advance. destruct (list_setitem _ _ _); [|reflexivity].
  rewrite Z.add_0_r. reflexivity.
Qed.

Lemma bind_pc_add (n : Z) (k : unit -> M B) (vm : VirtualMachine) :
  bind (pc_add n) k vm = k tt (advance vm (data_memory vm) n).
Proof. reflexivity. Qed.

Lemma advance_advance (vm : VirtualMachine) (l l' : list Z) (n : Z) :
  advance (advance vm l 0) l' n = advance vm l' n.
Proof. unfold advance. simpl. rewrite Z.add_0_r. reflexivity. Qed.

End Primitives.

(** What each [execute_*] does, in one piece: the fields it decodes, the
    cells it consults, the one assignment it makes, and [pc] moved past the
    instruction; or an exception with the state as it was. *)
Section Execute.

Variable vm : VirtualMachine.

Lemma execute_load_const_cases :
  let constant := bits_at vm 7 11 in
  let address := bits_at vm 18 26 in
  (exists s l,
      list_setitem (data_memory vm) address constant = Ok l
      /\ execute_load_const vm = (Ok s, advance vm l 6))
  \/ (exists e, execute_load_const vm = (Raise e, vm)).
Proof.
  cbv zeta. unfold execute_load_const.
  rewrite !bind_read_bits by lia. rewrite bind_mem_set.
  destruct (list_setitem _ _ _) as [l|e] eqn:E.
  - left. do 2 eexists. split; [reflexivity|].
    rewrite bind_pc_add. unfold ret. cbn [data_memory]. rewrite advance_advance.
    reflexivity.
  - right. eexists. reflexivity.
Qed.

Lemma execute_read_mem_cases :
  let offset := bits_at vm 7 8 in
  let src_addr := bits_at vm 15 26 in
  let dst_addr := bits_at vm 41 26 in
  (exists s base value l,
      list_getitem (data_memory vm) src_addr = Ok base
      /\ list_getitem (data_memory vm) (base + offset) = Ok value
      /\ list_setitem (data_memory vm) dst_addr value = Ok l
      /\ execute_read_mem vm = (Ok s, advance vm l 9))
  \/ (exists e, execute_read_mem vm = (Raise e, vm)).
Proof.
  cbv zeta. unfold execute_read_mem.
  rewrite !bind_read_bits by lia. rewrite bind_mem_get.
  destruct (list_getitem _ _) as [base|e] eqn:E1; [|right; eexists; reflexivity].
  rewrite bind_mem_get.
  destruct (list_getitem _ (base + _)) as [value|e] eqn:E2;
    [|right; eexists; reflexivity].
  rewrite bind_mem_set.
  destruct (list_setitem _ _ _) as [l|e] eqn:E3; [|right; eexists; reflexivity].
  left. do 4 eexists. repeat (split; [first [reflexivity | eassumption]|]).
  rewrite bind_pc_add. unfold ret. cbn [data_memory]. rewrite advance_advance.
  reflexivity.
Qed.

Lemma execute_write_mem_cases :
  let src_addr := bits_at vm 7 26 in
  let dst_addr := bits_at vm 33 26 in
  (exists s value l,
      list_getitem (data_memory vm) src_addr = Ok value
      /\ list_setitem (data_memory vm) dst_addr value = Ok l
      /\ execute_write_mem vm = (Ok s, advance vm l 8))
  \/ (exists e, execute_write_mem vm = (Raise e, vm)).
Proof.
  cbv zeta. unfold execute_write_mem.
  rewrite !bind_read_bits by lia. rewrite bind_mem_get.
  destruct (list_getitem _ _) as [value|e] eqn:E1; [|right; eexists; reflexivity].
  rewrite bind_mem_set.
  destruct (list_setitem _ _ _) as [l|e] eqn:E3; [|right; eexists; reflexivity].
  left. do 3 eexists. repeat (split; [first [reflexivity | eassumption]|]).
  rewrite bind_pc_add. unfold ret. cbn [data_memory]. rewrite advance_advance.
  reflexivity.
Qed.

Lemma execute_gte_cases :
  let offset1 := bits_at vm 7 8 in
  let addr1 := bits_at vm 15 26 in
  let addr2 := bits_at vm 41 26 in
  let res_addr := bits_at vm 67 26 in
  let offset2 := bits_at vm 93 8 in
  (exists s base1 base_res operand1 operand2 l,
      list_getitem (data_memory vm) addr1 = Ok base1
      /\ list_getitem (data_memory vm) res_addr = Ok base_res
      /\ list_getitem (data_memory vm) (base1 + offset1) = Ok operand1
      /\ list_getitem (data_memory vm) addr2 = Ok operand2
      /\ list_setitem (data_memory vm) (base_res + offset2)
           (if operand1 >=? operand2 then 1 else 0) = Ok l
      /\ execute_gte vm = (Ok s, advance vm l 13))
  \/ (exists e, execute_gte vm = (Raise e, vm)).
Proof.
  cbv zeta. unfold execute_gte.
  rewrite !bind_read_bits by lia. rewrite bind_mem_get.
  destruct (list_getitem _ _) as [base1|e] eqn:E1; [|right; eexists; reflexivity].
  rewrite bind_mem_get.
  destruct (list_getitem _ (bits_at vm 67 26)) as [base_res|e] eqn:E2;
    [|right; eexists; reflexivity].
  rewrite bind_mem_get.
  destruct (list_getitem _ (base1 + _)) as [operand1|e] eqn:E3;
    [|right; eexists; reflexivity].
  rewrite bind_mem_get.
  destruct (list_getitem _ (bits_at vm 41 26)) as [operand2|e] eqn:E4;
    [|right; eexists; reflexivity].
  rewrite bind_mem_set.
  destruct (list_setitem _ _ _) as [l|e] eqn:E5; [|right; eexists; reflexivity].
  left. do 6 eexists. repeat (split; [first [reflexivity | eassumption]|]).
  rewrite bind_pc_add. unfold ret. cbn [data_memory]. rewrite advance_advance.
  reflexivity.
Qed.

End Execute.

(** ** One step *)

Section Step.

Variable vm : VirtualMachine.

Let code_len : Z := Z.of_nat (List.length (code_memory vm)).

Lemma step_halted : code_len <= pc vm -> step vm = (Ok None, vm).
Proof.
  intros H. unfold step, bind, get_pc, code_length.
  destruct (Z.geb_spec (pc vm) (Z.of_nat (List.length (code_memory vm))));
    [reflexivity | subst code_len; lia].
Qed.

Lemma step_dispatch :
  pc vm < code_len ->
  step vm =
    let opcode := bits_at vm 0 7 in
    if opcode =? 111 then (s <- execute_load_const ;; ret (Some s)) vm
    else if opcode =? 40 then (s <- execute_read_mem ;; ret (Some s)) vm
    else if opcode =? 101 then (s <- execute_write_mem ;; ret (Some s)) vm
    else if opcode =? 68 then (s <- execute_gte ;; ret (Some s)) vm
    else (Raise (unknown_opcode opcode (pc vm)), vm).
Proof.
  intros H. unfold step at 1. unfold bind at 1, get_pc.
  unfold bind at 1, code_length.
  destruct (Z.geb_spec (pc vm) (Z.of_nat (List.length (code_memory vm))));
    [subst code_len; lia|].
  rewrite bind_read_bits by lia. cbv zeta.
  repeat (destruct (_ =? _); [reflexivity|]).
  reflexivity.
Qed.

(** The state a step leaves behind, in each of its three outcomes. *)
Lemma step_outcome :
  (code_len <= pc vm /\ step vm = (Ok None, vm))
  \/ (pc vm < code_len
      /\ exists s l n, effect vm l n /\ step vm = (Ok (Some s), advance vm l n))
  \/ (pc vm < code_len /\ exists e, step vm = (Raise e, vm)).
Proof.
  destruct (Z.le_gt_cases code_len (pc vm)) as [Hh|Hr].
  - left. split; [exact Hh | apply step_halted; exact Hh].
  - right. rewrite (step_dispatch Hr). cbv zeta.
    destruct (Z.eqb_spec (bits_at vm 0 7) 111) as [E|_].
    { destruct (execute_load_const_cases vm) as [(s & l & Hset & Hex)|(e & Hex)].
      - left. split; [exact Hr|]. exists s, l, 6.
        split; [eapply effect_load_const; eassumption|].
        rewrite (bind_ok _ _ _ _ _ Hex). reflexivity.
      - right. split; [exact Hr|]. exists e. apply bind_raise. exact Hex. }
    destruct (Z.eqb_spec (bits_at vm 0 7) 40) as [E|_].
    { destruct (execute_read_mem_cases vm)
        as [(s & base & value & l & H1 & H2 & H3 & Hex)|(e & Hex)].
      - left. split; [exact Hr|]. exists s, l, 9.
        split; [eapply effect_read_mem; eassumption|].
        rewrite (bind_ok _ _ _ _ _ Hex). reflexivity.
      - right. split; [exact Hr|]. exists e. apply bind_raise. exact Hex. }
    destruct (Z.eqb_spec (bits_at vm 0 7) 101) as [E|_].
    { destruct (execute_write_mem_cases vm)
        as [(s & value & l & H1 & H2 & Hex)|(e & Hex)].
      - left. split; [exact Hr|]. exists s, l, 8.
        split; [eapply effect_write_mem; eassumption|].
        rewrite (bind_ok _ _ _ _ _ Hex). reflexivity.
      - right. split; [exact Hr|]. exists e. apply bind_raise. exact Hex. }
    destruct (Z.eqb_spec (bits_at vm 0 7) 68) as [E|_].
    { destruct (execute_gte_cases vm)
        as [(s & b1 & br & o1 & o2 & l & H1 & H2 & H3 & H4 & H5 & Hex)|(e & Hex)].
      - left. split; [exact Hr|]. exists s, l, 13.
        split; [eapply effect_gte; eassumption|].
        rewrite (bind_ok _ _ _ _ _ Hex). reflexivity.
      - right. split; [exact Hr|]. exists e. apply bind_raise. exact Hex. }
    right. split; [exact Hr|]. eexists. reflexivity.
Qed.

Lemma stepped_effect (vm' : VirtualMachine) :
  stepped vm vm' ->
  pc vm < code_len /\ exists l n, effect vm l n /\ vm' = advance vm l n.
Proof.
  intros [s Hs].
  destruct step_outcome as [(_ & H)|[(Hr & s' & l & n & He & H)|(_ & e & H)]];
    rewrite H in Hs; try discriminate.
  injection Hs as _ <-. split; [exact Hr|]. exists l, n. split; [exact He|reflexivity].
Qed.


Lemma step_none_state (vm' : VirtualMachine) :
  step vm = (Ok None, vm') -> vm' = vm /\ code_len <= pc vm.
Proof.
  intros Hs.
  destruct step_outcome as [(Hh & H)|[(Hr & s' & l & n & He & H)|(_ & e' & H)]];
    rewrite H in Hs; try discriminate.
  injection Hs as <-. split; [reflexivity|exact Hh].
Qed.

Lemma effect_increment (l : list Z) (n : Z) :
  effect vm l n -> n = 6 \/ n = 9 \/ n = 8 \/ n = 13.
Proof. destruct 1; lia. Qed.

End Step.

(** ** Subscripts of the data memory *)

Section Subscripts.

Lemma list_index_Some (n : nat) (i : Z) (k : nat) :
  list_index n i = Some k -> (k < n)%nat.
Proof.
  unfold list_index. destruct (i <? 0);
    destruct (Z.leb_spec 0 (i + Z.of_nat n)); destruct (Z.leb_spec 0 i);
    simpl; try discriminate;
    match goal with |- context [?a <? ?b] => destruct (Z.ltb_spec a b) end;
    try discriminate; intros [= <-]; lia.
Qed.

Lemma list_index_nonneg (n : nat) (i : Z) :
  0 <= i < Z.of_nat n -> list_index n i = Some (Z.to_nat i).
Proof.
  intros Hi. unfold list_index.
  destruct (Z.ltb_spec i 0); [lia|].
  destruct (Z.leb_spec 0 i); [|lia].
  destruct (Z.ltb_spec i (Z.of_nat n)); [reflexivity|lia].
Qed.

Lemma list_getitem_Ok (l : list Z) (i v : Z) :
  list_getitem l i = Ok v <->
  exists k, list_index (List.length l) i = Some k /\ l !! k = Some v.
Proof.
  unfold list_getitem. split.
  - destruct (list_index _ _) as [k|]; [|discriminate].
    destruct (l !! k) as [w|] eqn:E; [|discriminate].
    intros [= ->]. exists k. split; [reflexivity|exact E].
  - intros (k & -> & ->). reflexivity.
Qed.

Lemma list_getitem_nonneg (l : list Z) (i v : Z) :
  0 <= i -> l !! Z.to_nat i = Some v -> list_getitem l i = Ok v.
Proof.
  intros Hi Hv. apply list_getitem_Ok. exists (Z.to_nat i). split; [|exact Hv].
  apply list_index_nonneg. apply lookup_lt_Some in Hv. lia.
Qed.

Lemma list_setitem_Ok (l l' : list Z) (i v : Z) :
  list_setitem l i v = Ok l' <->
  exists k, list_index (List.length l) i = Some k /\ l' = <[k := v]> l.
Proof.
  unfold list_setitem. split.
  - destruct (list_index _ _) as [k|]; [|discriminate].
    intros [= <-]. exists k. split; reflexivity.
  - intros (k & -> & ->). reflexivity.
Qed.

Lemma list_setitem_nonneg (l : list Z) (i v : Z) :
  0 <= i < Z.of_nat (List.length l) ->
  list_setitem l i v = Ok (<[Z.to_nat i := v]> l).
Proof.
  intros Hi. apply list_setitem_Ok. exists (Z.to_nat i).
  split; [apply list_index_nonneg; exact Hi | reflexivity].
Qed.

(** Reading back the subscript just assigned. *)
Lemma list_getitem_setitem (l l' : list Z) (i v : Z) :
  list_setitem l i v = Ok l' -> list_getitem l' i = Ok v.
Proof.
  intros H. apply list_setitem_Ok in H as (k & Hk & ->).
  apply list_getitem_Ok. exists k. rewrite length_insert. split; [exact Hk|].
  apply list_lookup_insert_eq. eapply list_index_Some. exact Hk.
Qed.

End Subscripts.

(** ** The loop of [run] *)

Section Run.

Lemma effect_deterministic (vm : VirtualMachine) (l l' : list Z) (n n' : Z) :
  effect vm l n -> effect vm l' n' -> l = l' /\ n = n'.
Proof.
  intros H H'. destruct H; destruct H'; try congruence.
  - split; congruence.
  - assert (base = base0) by congruence. subst.
    assert (value = value0) by congruence. subst. split; congruence.
  - assert (value = value0) by congruence. subst. split; congruence.
  - assert (base1 = base0) by congruence. subst.
    assert (base_res = base_res0) by congruence. subst.
    assert (operand1 = operand0) by congruence. subst.
    assert (operand2 = operand3) by congruence. subst. split; congruence.
Qed.

Lemma effect_stepped (vm : VirtualMachine) (l : list Z) (n : Z) :
  pc vm < Z.of_nat (List.length (code_memory vm)) ->
  effect vm l n -> stepped vm (advance vm l n).
Proof.
  intros Hr He.
  destruct (step_outcome vm) as [(Hh & _)|[(_ & s & l' & n' & He' & H)|(_ & e & H)]].
  - lia.
  - destruct (effect_deterministic vm l l' n n' He He') as [-> ->].
    exists s. exact H.
  - exfalso. rewrite (step_dispatch vm Hr) in H. cbv zeta in H.
    destruct He as [l Hop Hset | base value l Hop H1 H2 H3
                   | value l Hop H1 H2 | b1 br o1 o2 l Hop H1 H2 H3 H4 H5];
      rewrite Hop in H; cbn [Z.eqb Pos.eqb] in H.
    + destruct (execute_load_const_cases vm) as [(s & l' & _ & Hex)|(e' & Hex)].
      * rewrite (bind_ok _ _ _ _ _ Hex) in H. discriminate.
      * unfold execute_load_const in Hex.
        rewrite !bind_read_bits, bind_mem_set, Hset in Hex by lia. discriminate.
    + destruct (execute_read_mem_cases vm) as [(s & ? & ? & l' & _ & _ & _ & Hex)|(e' & Hex)].
      * rewrite (bind_ok _ _ _ _ _ Hex) in H. discriminate.
      * unfold execute_read_mem in Hex.
        rewrite !bind_read_bits, bind_mem_get, H1, bind_mem_get, H2,
          bind_mem_set, H3 in Hex by lia. discriminate.
    + destruct (execute_write_mem_cases vm) as [(s & ? & l' & _ & _ & Hex)|(e' & Hex)].
      * rewrite (bind_ok _ _ _ _ _ Hex) in H. discriminate.
      * unfold execute_write_mem in Hex.
        rewrite !bind_read_bits, bind_mem_get, H1, bind_mem_set, H2 in Hex by lia.
        discriminate.
    + destruct (execute_gte_cases vm)
        as [(s & ? & ? & ? & ? & l' & _ & _ & _ & _ & _ & Hex)|(e' & Hex)].
      * rewrite (bind_ok _ _ _ _ _ Hex) in H. discriminate.
      * unfold execute_gte in Hex.
        rewrite !bind_read_bits, bind_mem_get, H1, bind_mem_get, H2,
          bind_mem_get, H3, bind_mem_get, H4, bind_mem_set, H5 in Hex by lia.
        discriminate.
Qed.

Lemma stepped_pc (vm vm' : VirtualMachine) :
  stepped vm vm' ->
  code_memory vm' = code_memory vm
  /\ pc vm < Z.of_nat (List.length (code_memory vm))
  /\ pc vm + 6 <= pc vm'.
Proof.
  intros H. apply stepped_effect in H as (Hr & l & n & He & ->).
  apply effect_increment in He. unfold advance. simpl.
  split; [reflexivity|]. cbv zeta in Hr. lia.
Qed.

Lemma run_loop_halted (fuel : nat) (cnt : Z) (vm : VirtualMachine) :
  Z.of_nat (List.length (code_memory vm)) <= pc vm ->
  run_loop fuel cnt vm = Some (Ok cnt, vm).
Proof.
  intros H. destruct fuel; simpl;
    destruct (Z.ltb_spec (pc vm) (Z.of_nat (List.length (code_memory vm))));
    try lia; reflexivity.
Qed.

Lemma run_loop_stepped (fuel : nat) (cnt : Z) (vm vm' : VirtualMachine) :
  stepped vm vm' ->
  run_loop (S fuel) cnt vm = run_loop fuel (cnt + 1) vm'.
Proof.
  intros H. pose proof (stepped_pc _ _ H) as (_ & Hr & _).
  destruct H as [s Hs]. simpl.
  destruct (Z.ltb_spec (pc vm) (Z.of_nat (List.length (code_memory vm)))); [|lia].
  rewrite Hs. reflexivity.
Qed.

Lemma run_loop_raise (fuel : nat) (cnt : Z) (vm : VirtualMachine) (e : exn) :
  pc vm < Z.of_nat (List.length (code_memory vm)) ->
  step vm = (Raise e, vm) ->
  run_loop (S fuel) cnt vm = Some (Raise e, vm).
Proof.
  intros Hr Hs. simpl.
  destruct (Z.ltb_spec (pc vm) (Z.of_nat (List.length (code_memory vm)))); [|lia].
  rewrite Hs. reflexivity.
Qed.

(** With a budget of at least the bytes left to execute, the loop ends: it
    returns at a state with [pc] at or past the end of the program, or it is
    left by an exception at a state with [pc] inside the program. *)
Lemma run_loop_ends (fuel : nat) :
  forall (cnt : Z) (vm : VirtualMachine),
    Z.of_nat (List.length (code_memory vm)) - pc vm <= Z.of_nat fuel ->
    (exists n vm',
        run_loop fuel cnt vm = Some (Ok n, vm')
        /\ Z.of_nat (List.length (code_memory vm')) <= pc vm')
    \/ (exists e vm',
          run_loop fuel cnt vm = Some (Raise e, vm')
          /\ pc vm' < Z.of_nat (List.length (code_memory vm'))).
Proof.
  induction fuel as [|fuel IH]; intros cnt vm Hfuel.
  - left. exists cnt, vm. split; [apply run_loop_halted; lia | lia].
  - destruct (step_outcome vm) as [(Hh & _)|[(Hr & s & l & n & He & H)|(Hr & e & H)]].
    + left. exists cnt, vm. split; [apply run_loop_halted; exact Hh | exact Hh].
    + assert (Hst : stepped vm (advance vm l n)) by (exists s; exact H).
      rewrite (run_loop_stepped _ _ _ _ Hst).
      apply IH. apply effect_increment in He. unfold advance. simpl. lia.
    + right. exists e, vm. split; [apply run_loop_raise; assumption | exact Hr].
Qed.

(** The budget only matters when it runs out: a result obtained with some
    budget is the result with any larger one. *)
Lemma run_loop_more_fuel (fuel : nat) :
  forall (cnt : Z) (vm : VirtualMachine) (r : Res Z * VirtualMachine),
    run_loop fuel cnt vm = Some r ->
    forall fuel' : nat, (fuel <= fuel')%nat -> run_loop fuel' cnt vm = Some r.
Proof.
  induction fuel as [|fuel IH]; intros cnt vm r Hrun fuel' Hle.
  - simpl in Hrun.
    destruct (Z.ltb_spec (pc vm) (Z.of_nat (List.length (code_memory vm))));
      [discriminate|].
    rewrite run_loop_halted by lia. exact Hrun.
  - destruct fuel' as [|fuel']; [lia|]. simpl in Hrun |- *.
    destruct (pc vm <? Z.of_nat (List.length (code_memory vm))); [|exact Hrun].
    destruct (step vm) as [[[s|]|e] vm']; try exact Hrun.
    apply IH with (fuel' := fuel') in Hrun; [exact Hrun | lia].
Qed.

Lemma rtc_stepped_code (vm vm' : VirtualMachine) :
  rtc stepped vm vm' ->
  code_memory vm' = code_memory vm /\ pc vm <= pc vm'.
Proof.
  induction 1 as [x | x y z Hxy _ IH].
  - split; [reflexivity | lia].
  - apply stepped_pc in Hxy as (Hc & _ & Hp). destruct IH as [IHc IHp].
    split; [congruence | lia].
Qed.

(** A run that meets an exception after some executed instructions is left
    by that exception, at the state those instructions produced. *)
Lemma run_loop_abort (vm0 vm : VirtualMachine) (e : exn) :
  rtc stepped vm0 vm ->
  pc vm < Z.of_nat (List.length (code_memory vm)) ->
  step vm = (Raise e, vm) ->
  forall (fuel : nat) (cnt : Z),
    Z.of_nat (List.length (code_memory vm0)) - pc vm0 <= Z.of_nat fuel ->
    run_loop fuel cnt vm0 = Some (Raise e, vm).
Proof.
  intros Hrtc Hr Hs.
  induction Hrtc as [x | x y z Hxy Hyz IH]; intros fuel cnt Hfuel.
  - destruct fuel as [|fuel]; [lia|]. apply run_loop_raise; assumption.
  - pose proof (stepped_pc _ _ Hxy) as (Hc & Hrx & Hp).
    destruct fuel as [|fuel]; [lia|].
    rewrite (run_loop_stepped _ _ _ _ Hxy).
    apply IH; try assumption. rewrite Hc. lia.
Qed.

End Run.

(** ** The program counter *)

Lemma stepped_opcode_increment (vm vm' : VirtualMachine) :
  stepped vm vm' ->
  (read_bits 0 7 vm = (Ok 111, vm) /\ pc vm' = pc vm + 6)
  \/ (read_bits 0 7 vm = (Ok 40, vm) /\ pc vm' = pc vm + 9)
  \/ (read_bits 0 7 vm = (Ok 101, vm) /\ pc vm' = pc vm + 8)
  \/ (read_bits 0 7 vm = (Ok 68, vm) /\ pc vm' = pc vm + 13).
Proof.
  intros H. apply stepped_effect in H as (_ & l & n & He & ->).
  rewrite read_bits_pure by lia.
  destruct He as [l Hop _ | ? ? l Hop _ _ _ | ? l Hop _ _ | ? ? ? ? l Hop _ _ _ _ _];
    rewrite Hop; simpl pc; auto.
Qed.

Lemma tc_stepped_pc (vm vm' : VirtualMachine) :
  tc stepped vm vm' -> pc vm < pc vm'.
Proof.
  induction 1 as [x y Hxy | x y z Hxy _ IH].
  - apply stepped_pc in Hxy. lia.
  - apply stepped_pc in Hxy. lia.
Qed.

(** C7. [load_program] leaves [pc] at 0.  A step that executes an
    instruction moves [pc] forward by the byte length of the variant whose
    opcode stands at [pc]: 6 for 111, 9 for 40, 8 for 101, 13 for 68; hence
    [pc] grows strictly along any sequence of executed steps.  [run] always
    comes to an end; when it returns, [pc] is at or past the end of the
    loaded binary; it returns at once, executing nothing, from a state whose
    [pc] is already there, and goes on to the next instruction after every
    executed step. *)
Theorem pc_advances_and_run_halts :
  (forall (binary : list byte) (vm : VirtualMachine),
      exists vm0,
        load_program binary vm = (Ok tt, vm0)
        /\ pc vm0 = 0 /\ code_memory vm0 = binary)
  /\ (forall vm vm' : VirtualMachine,
        stepped vm vm' ->
        (read_bits 0 7 vm = (Ok 111, vm) /\ pc vm' = pc vm + 6)
        \/ (read_bits 0 7 vm = (Ok 40, vm) /\ pc vm' = pc vm + 9)
        \/ (read_bits 0 7 vm = (Ok 101, vm) /\ pc vm' = pc vm + 8)
        \/ (read_bits 0 7 vm = (Ok 68, vm) /\ pc vm' = pc vm + 13))
  /\ (forall vm vm' : VirtualMachine, tc stepped vm vm' -> pc vm < pc vm')
  /\ (forall vm : VirtualMachine,
        0 <= pc vm ->
        (exists n vm',
            run vm = Some (Ok n, vm')
            /\ Z.of_nat (List.length (code_memory vm')) <= pc vm')
        \/ (exists e vm',
              run vm = Some (Raise e, vm')
              /\ pc vm' < Z.of_nat (List.length (code_memory vm'))))
  /\ (forall (vm : VirtualMachine) (fuel : nat) (step_count : Z),
        Z.of_nat (List.length (code_memory vm)) <= pc vm ->
        run_loop fuel step_count vm = Some (Ok step_count, vm))
  /\ (forall (vm vm' : VirtualMachine) (fuel : nat) (step_count : Z),
        stepped vm vm' ->
        pc vm < Z.of_nat (List.length (code_memory vm))
        /\ run_loop (S fuel) step_count vm = run_loop fuel (step_count + 1) vm').
Proof.
  repeat split.
  - eexists. split; [reflexivity|]. split; reflexivity.
  - exact stepped_opcode_increment.
  - exact tc_stepped_pc.
  - intros vm Hpc. unfold run. apply run_loop_ends. lia.
  - intros vm fuel cnt H. apply run_loop_halted. exact H.
  - apply stepped_pc in H. lia.
  - apply run_loop_stepped. exact H.
Qed.

(** C8. When [pc] is inside the program and the 7-bit opcode field there is
    none of 111, 40, 101, 68, [step] raises the unknown-opcode error and the
    state it leaves is the state it started from: same [pc], same data
    memory.  A run that reaches such a state after executing some
    instructions is left by that error with exactly the state those
    instructions produced, their memory writes included. *)
Theorem unknown_opcode_is_fatal (vm : VirtualMachine) (op : Z) :
  pc vm < Z.of_nat (List.length (code_memory vm)) ->
  read_bits 0 7 vm = (Ok op, vm) ->
  op <> 111 -> op <> 40 -> op <> 101 -> op <> 68 ->
  step vm = (Raise (unknown_opcode op (pc vm)), vm)
  /\ forall vm0 : VirtualMachine,
       0 <= pc vm0 -> rtc stepped vm0 vm ->
       run vm0 = Some (Raise (unknown_opcode op (pc vm)), vm).
Proof.
  intros Hr Hop H1 H2 H3 H4.
  rewrite read_bits_pure in Hop by lia. injection Hop as Hop.
  assert (Hs : step vm = (Raise (unknown_opcode op (pc vm)), vm)).
  { rewrite (step_dispatch vm Hr). cbv zeta. rewrite Hop.
    destruct (Z.eqb_spec op 111); [contradiction|].
    destruct (Z.eqb_spec op 40); [contradiction|].
    destruct (Z.eqb_spec op 101); [contradiction|].
    destruct (Z.eqb_spec op 68); [contradiction|].
    reflexivity. }
  split; [exact Hs|].
  intros vm0 Hpc Hrtc. unfold run.
  apply (run_loop_abort vm0 vm _ Hrtc Hr Hs). lia.
Qed.

(** ** Writes to the data memory *)


Lemma effect_stored (vm : VirtualMachine) (l : list Z) (n : Z) :
  effect vm l n ->
  exists target value,
    written_address vm target
    /\ stored_value vm value
    /\ list_setitem (data_memory vm) target value = Ok l.
Proof.
  intros He. unfold written_address, stored_value.
  rewrite !read_bits_pure by lia.
  destruct He as [l Hop Hset | base value l Hop H1 H2 Hset
                 | value l Hop H1 Hset | b1 br o1 o2 l Hop H1 H2 H3 H4 Hset];
    rewrite Hop; do 2 eexists; (split; [|split; [|exact Hset]]).
  - left. split; reflexivity.
  - left. split; reflexivity.
  - right; left. split; reflexivity.
  - right; left. split; [reflexivity|].
    exists (bits_at vm 7 8), (bits_at vm 15 26), base.
    repeat split; try reflexivity; assumption.
  - right; right; left. split; reflexivity.
  - right; right; left. split; [reflexivity|].
    exists (bits_at vm 7 26). split; [reflexivity|exact H1].
  - right; right; right. split; [reflexivity|].
    exists (bits_at vm 67 26), (bits_at vm 93 8), br.
    repeat split; try reflexivity. exact H2.
  - right; right; right. split; [reflexivity|].
    exists (bits_at vm 7 8), (bits_at vm 15 26), (bits_at vm 41 26), b1, o1, o2.
    repeat split; try reflexivity; assumption.
Qed.

(** C9. A step that executes an instruction assigns to one cell of the data
    memory: the cell its address operand designates ([memory[address]] for
    LoadConst, [memory[dst_addr]] for ReadMem and WriteMem,
    [memory[memory[res_addr] + offset2]] for Gte) receives the value of the
    instruction (the constant; the cell read through [src_addr] and
    [offset]; the cell at [src_addr]; the outcome 1 or 0 of the comparison),
    so that reading that address afterwards gives this value; every other
    cell, the length of the memory and the instruction buffer are as
    before. *)
Theorem step_writes_one_cell (vm vm' : VirtualMachine) :
  stepped vm vm' ->
  exists (target value : Z) (k : nat),
    written_address vm target
    /\ stored_value vm value
    /\ list_index (List.length (data_memory vm)) target = Some k
    /\ data_memory vm' = <[k := value]> (data_memory vm)
    /\ list_getitem (data_memory vm') target = Ok value
    /\ (forall j : nat, j <> k -> data_memory vm' !! j = data_memory vm !! j)
    /\ List.length (data_memory vm') = List.length (data_memory vm)
    /\ code_memory vm' = code_memory vm.
Proof.
  intros H. apply stepped_effect in H as (_ & l & n & He & ->).
  apply effect_stored in He as (target & value & Hw & Hv & Hset).
  pose proof (list_getitem_setitem _ _ _ _ Hset) as Hget.
  apply list_setitem_Ok in Hset as (k & Hk & ->).
  exists target, value, k. simpl data_memory. simpl code_memory.
  repeat split; try assumption.
  - intros j Hj. apply list_lookup_insert_ne. congruence.
  - apply length_insert.
Qed.

(** ** Range of the stored values *)

Section Cells.

Lemma list_getitem_Forall (l : list Z) (i v : Z) :
  Forall cell_ok l -> list_getitem l i = Ok v -> cell_ok v.
Proof.
  intros Hl H. apply list_getitem_Ok in H as (k & _ & Hk).
  exact (Forall_lookup_1 _ _ _ _ Hl Hk).
Qed.

Lemma list_setitem_Forall (l l' : list Z) (i v : Z) :
  Forall cell_ok l -> cell_ok v -> list_setitem l i v = Ok l' -> Forall cell_ok l'.
Proof.
  intros Hl Hv H. apply list_setitem_Ok in H as (k & _ & ->).
  apply Forall_insert; assumption.
Qed.

Lemma effect_cells (vm : VirtualMachine) (l : list Z) (n : Z) :
  Forall cell_ok (data_memory vm) -> effect vm l n -> Forall cell_ok l.
Proof.
  intros Hm He.
  destruct He as [l Hop Hset | base value l Hop H1 H2 Hset
                 | value l Hop H1 Hset | b1 br o1 o2 l Hop H1 H2 H3 H4 Hset].
  - eapply list_setitem_Forall; [exact Hm | | exact Hset].
    pose proof (bits_at_range vm 7 11). unfold cell_ok. lia.
  - eapply list_setitem_Forall; [exact Hm | | exact Hset].
    eapply list_getitem_Forall; eassumption.
  - eapply list_setitem_Forall; [exact Hm | | exact Hset].
    eapply list_getitem_Forall; eassumption.
  - eapply list_setitem_Forall; [exact Hm | | exact Hset].
    unfold cell_ok. destruct (o1 >=? o2); lia.
Qed.

Lemma stepped_cells (vm vm' : VirtualMachine) :
  Forall cell_ok (data_memory vm) -> stepped vm vm' ->
  Forall cell_ok (data_memory vm').
Proof.
  intros Hm H. apply stepped_effect in H as (_ & l & n & He & ->).
  simpl. eapply effect_cells; eassumption.
Qed.

End Cells.

(** C10. From the zero-initialised data memory of a fresh machine, of any
    size and with any binary loaded, every cell holds an integer in
    [0, 2047] after any sequence of steps that executed without error. *)
Theorem memory_cells_stay_in_11_bits
    (memory_size : Z) (binary : list byte) (vm0 vm : VirtualMachine) :
  load_program binary (VirtualMachine_init memory_size) = (Ok tt, vm0) ->
  rtc stepped vm0 vm ->
  Forall (fun x => 0 <= x <= 2047) (data_memory vm).
Proof.
  intros Hload Hrtc. change (Forall cell_ok (data_memory vm)).
  assert (H0 : Forall cell_ok (data_memory vm0)).
  { injection Hload as <-. simpl. apply Forall_replicate. unfold cell_ok. lia. }
  clear Hload. induction Hrtc as [x | x y z Hxy _ IH]; [exact H0|].
  apply IH. eapply stepped_cells; eassumption.
Qed.

(** ** Semantics of Gte *)

Lemma read_bits_value (vm vm' : VirtualMachine) (start_bit length v : Z) :
  0 <= length -> read_bits start_bit length vm = (Ok v, vm') ->
  bits_at vm start_bit length = v.
Proof. intros Hl H. rewrite read_bits_pure in H by lia. congruence. Qed.

(** C2. One step on a Gte instruction with in-range fields
    [(offset1, addr1, addr2, res_addr, offset2)], encoded at [pc], on a data
    memory where every address involved is within bounds: with
    [base1 = memory[addr1]] and [base_res = memory[res_addr]], the operands
    are [operand1 = memory[base1 + offset1]] and [operand2 = memory[addr2]]
    (read directly), and the step stores at [base_res + offset2] the value 1
    when [operand1 >= operand2] and 0 otherwise, changes no other cell, and
    moves [pc] by 13. *)
Theorem gte_step_semantics
    (pre post : list byte) (mem : list Z)
    (offset1 addr1 addr2 res_addr offset2 : Z)
    (base1 base_res operand1 operand2 : Z) :
  operands_in_range (GTE offset1 addr1 addr2 res_addr offset2) ->
  mem !! Z.to_nat addr1 = Some base1 ->
  0 <= base1 + offset1 ->
  mem !! Z.to_nat (base1 + offset1) = Some operand1 ->
  mem !! Z.to_nat addr2 = Some operand2 ->
  mem !! Z.to_nat res_addr = Some base_res ->
  0 <= base_res + offset2 < Z.of_nat (List.length mem) ->
  exists (bs : list byte) (s : string) (result : Z),
    to_bytes (GTE offset1 addr1 addr2 res_addr offset2) = Ok bs
    /\ step {| data_memory := mem;
               code_memory := pre ++ bs ++ post;
               pc := Z.of_nat (List.length pre) |}
       = (Ok (Some s),
          {| data_memory := <[Z.to_nat (base_res + offset2) := result]> mem;
             code_memory := pre ++ bs ++ post;
             pc := Z.of_nat (List.length pre) + 13 |})
    /\ (operand1 >= operand2 -> result = 1)
    /\ (operand1 < operand2 -> result = 0).
Proof.
  intros Hr H1 He1 Ho1 H2 Hres Her.
  destruct (gte_encoding_fields pre post mem _ _ _ _ _ Hr)
    as (bs & Hbs & Hlen & Hrb).
  simpl in Hr. destruct Hr as (Hr1 & Hr2 & Hr3 & Hr4 & Hr5).
  set (vm := {| data_memory := mem; code_memory := pre ++ bs ++ post;
                pc := Z.of_nat (List.length pre) |}) in *.
  destruct Hrb as (B0 & B1 & B2 & B3 & B4 & B5).
  apply read_bits_value in B0, B1, B2, B3, B4, B5; try lia.
  assert (Hpc : pc vm < Z.of_nat (List.length (code_memory vm))).
  { simpl. rewrite !length_app, Hlen. lia. }
  assert (Heff : effect vm
                   (<[Z.to_nat (base_res + offset2) :=
                        if operand1 >=? operand2 then 1 else 0]> mem) 13).
  { apply effect_gte with base1 base_res operand1 operand2.
    - exact B0.
    - rewrite B2. apply list_getitem_nonneg; [lia | exact H1].
    - rewrite B4. apply list_getitem_nonneg; [lia | exact Hres].
    - rewrite B1. apply list_getitem_nonneg; [lia | exact Ho1].
    - rewrite B3. apply list_getitem_nonneg; [lia | exact H2].
    - rewrite B5. apply list_setitem_nonneg. exact Her. }
  destruct (effect_stepped vm _ _ Hpc Heff) as [s Hs].
  exists bs, s, (if operand1 >=? operand2 then 1 else 0).
  split; [exact Hbs|]. split; [exact Hs|].
  destruct (Z.geb_spec operand1 operand2); split; intros; lia.
Qed.

(** ** Scenario: two constants and a comparison *)

Section Scenario.

Lemma stepped_load_const (vm : VirtualMachine) (constant address : Z) :
  pc vm < Z.of_nat (List.length (code_memory vm)) ->
  bits_at vm 0 7 = 111 ->
  bits_at vm 7 11 = constant ->
  bits_at vm 18 26 = address ->
  0 <= address < Z.of_nat (List.length (data_memory vm)) ->
  stepped vm (advance vm (<[Z.to_nat address := constant]> (data_memory vm)) 6).
Proof.
  intros Hpc B0 B1 B2 Ha. apply effect_stepped; [exact Hpc|].
  apply effect_load_const; [exact B0|].
  rewrite B1, B2. apply list_setitem_nonneg. exact Ha.
Qed.

Lemma stepped_gte (vm : VirtualMachine)
    (offset1 addr1 addr2 res_addr offset2 base1 base_res operand1 operand2 : Z) :
  pc vm < Z.of_nat (List.length (code_memory vm)) ->
  bits_at vm 0 7 = 68 ->
  bits_at vm 7 8 = offset1 ->
  bits_at vm 15 26 = addr1 ->
  bits_at vm 41 26 = addr2 ->
  bits_at vm 67 26 = res_addr ->
  bits_at vm 93 8 = offset2 ->
  0 <= addr1 -> data_memory vm !! Z.to_nat addr1 = Some base1 ->
  0 <= res_addr -> data_memory vm !! Z.to_nat res_addr = Some base_res ->
  0 <= base1 + offset1 ->
  data_memory vm !! Z.to_nat (base1 + offset1) = Some operand1 ->
  0 <= addr2 -> data_memory vm !! Z.to_nat addr2 = Some operand2 ->
  0 <= base_res + offset2 < Z.of_nat (List.length (data_memory vm)) ->
  stepped vm
    (advance vm
       (<[Z.to_nat (base_res + offset2) :=
            if operand1 >=? operand2 then 1 else 0]> (data_memory vm)) 13).
Proof.
  intros Hpc B0 B1 B2 B3 B4 B5 ? H1 ? Hres ? Ho1 ? H2 Her.
  apply effect_stepped; [exact Hpc|].
  apply effect_gte with base1 base_res operand1 operand2.
  - exact B0.
  - rewrite B2. apply list_getitem_nonneg; assumption.
  - rewrite B4. apply list_getitem_nonneg; assumption.
  - rewrite B1. apply list_getitem_nonneg; assumption.
  - rewrite B3. apply list_getitem_nonneg; assumption.
  - rewrite B5. apply list_setitem_nonneg. exact Her.
Qed.

(** The run of [LOAD_CONST 10 0; LOAD_CONST 5 1; GTE 0 0 1 2 0] on a zeroed
    memory of eleven cells or more.  After the two loads the memory starts
    with [10; 5; 0].  Gte then takes [operand1] at [memory[0] + 0 = 10], a
    cell still zero, and [operand2 = memory[1] = 5]; the result, 0, goes to
    [memory[2] + 0 = 0]. *)
Lemma scenario_B_run (memory_size : Z) (binary : list byte) :
  11 <= memory_size ->
  to_binary [LoadConst 10 0; LoadConst 5 1; GTE 0 0 1 2 0] = Ok binary ->
  let mem0 := replicate (Z.to_nat memory_size) 0 in
  run {| data_memory := mem0; code_memory := binary; pc := 0 |}
  = Some (Ok 3,
          {| data_memory := <[0%nat := 0]> (<[1%nat := 5]> (<[0%nat := 10]> mem0));
             code_memory := binary;
             pc := 25 |}).
Proof.
  intros Hsize Hbin mem0.
  vm_compute in Hbin. injection Hbin as <-.
  assert (Hlen : List.length mem0 = Z.to_nat memory_size)
    by apply length_replicate.
  assert (Hz : forall k : nat, (k < Z.to_nat memory_size)%nat -> mem0 !! k = Some 0)
    by (intros k Hk; apply lookup_replicate_2; exact Hk).
  clearbody mem0. unfold run. cbn [code_memory List.length].
  set (vm0 := {| data_memory := mem0;
                 code_memory := _;
                 pc := 0 |}).
  set (vm1 := advance vm0 (<[Z.to_nat 0 := 10]> (data_memory vm0)) 6).
  set (vm2 := advance vm1 (<[Z.to_nat 1 := 5]> (data_memory vm1)) 6).
  set (vm3 := advance vm2
                (<[Z.to_nat (0 + 0) := if 0 >=? 5 then 1 else 0]>
                   (data_memory vm2)) 13).
  assert (Hm2 : data_memory vm2 = <[1%nat := 5]> (<[0%nat := 10]> mem0))
    by reflexivity.
  assert (Hl2 : List.length (data_memory vm2) = Z.to_nat memory_size)
    by (rewrite Hm2, !length_insert; exact Hlen).
  assert (S1 : stepped vm0 vm1).
  { apply stepped_load_const; try (vm_compute; reflexivity).
    cbn [data_memory vm0]. lia. }
  assert (S2 : stepped vm1 vm2).
  { apply stepped_load_const; try (vm_compute; reflexivity).
    cbn [data_memory vm1 vm0 advance]. rewrite length_insert. lia. }
  assert (S3 : stepped vm2 vm3).
  { apply (stepped_gte vm2 0 0 1 2 0 10 0 0 5);
      try (vm_compute; reflexivity); try lia; rewrite Hm2.
    - change (Z.to_nat 0) with 0%nat.
      rewrite list_lookup_insert_ne by lia.
      apply list_lookup_insert_eq. lia.
    - change (Z.to_nat 2) with 2%nat.
      rewrite !list_lookup_insert_ne by lia. apply Hz. lia.
    - change (Z.to_nat (10 + 0)) with 10%nat.
      rewrite !list_lookup_insert_ne by lia. apply Hz. lia.
    - change (Z.to_nat 1) with 1%nat.
      apply list_lookup_insert_eq. rewrite length_insert. lia. }
  rewrite (run_loop_stepped _ _ _ _ S1), (run_loop_stepped _ _ _ _ S2),
    (run_loop_stepped _ _ _ _ S3).
  rewrite run_loop_halted by (vm_compute; discriminate).
  reflexivity.
Qed.

End Scenario.

Lemma scenario_B_cell2 (memory_size : Z) :
  11 <= memory_size ->
  list_getitem
    (<[0%nat := 0]> (<[1%nat := 5]> (<[0%nat := 10]>
       (replicate (Z.to_nat memory_size) 0)))) 2 = Ok 0.
Proof.
  intros Hsize. apply list_getitem_nonneg; [lia|].
  change (Z.to_nat 2) with 2%nat.
  rewrite !list_lookup_insert_ne by lia.
  apply lookup_replicate_2. lia.
Qed.

Lemma scenario_B_only (memory_size cell2 : Z) :
  11 <= memory_size -> scenario_B_outcome memory_size cell2 -> cell2 = 0.
Proof.
  intros Hsize (i1 & i2 & i3 & binary & vm0 & n & vm
                & H1 & H2 & H3 & Hbin & Hload & Hrun & Hcell).
  assert (i1 = LoadConst 10 0) by (vm_compute in H1; congruence).
  assert (i2 = LoadConst 5 1) by (vm_compute in H2; congruence).
  assert (i3 = GTE 0 0 1 2 0) by (vm_compute in H3; congruence).
  subst i1 i2 i3.
  pose proof (scenario_B_run memory_size binary Hsize Hbin) as Hrun'.
  cbv zeta in Hrun'.
  unfold load_program, VirtualMachine_init in Hload. cbn [data_memory] in Hload.
  injection Hload as <-. rewrite Hrun' in Hrun. injection Hrun as _ <-.
  cbn [data_memory] in Hcell.
  rewrite (scenario_B_cell2 memory_size Hsize) in Hcell. congruence.
Qed.

(** C3, as amended.  On a zero-initialised data memory of at least eleven
    cells (the default machine has 100000), running the assembled program
    [LOAD_CONST 10 0; LOAD_CONST 5 1; GTE 0 0 1 2 0] from [pc = 0] terminates
    with [memory[2] == 0]: Gte addresses its first operand and its result
    through the cells [memory[0]] and [memory[2]], so it compares
    [memory[10] = 0] with [memory[1] = 5] and writes the result 0 to
    [memory[0]]; cell 2 is never written. *)
Theorem scenario_B_result (memory_size : Z) :
  11 <= memory_size -> scenario_B_outcome memory_size 0.
Proof.
  intros Hsize.
  assert (Hbin : exists binary,
             to_binary [LoadConst 10 0; LoadConst 5 1; GTE 0 0 1 2 0] = Ok binary)
    by (eexists; vm_compute; reflexivity).
  destruct Hbin as [binary Hbin].
  pose proof (scenario_B_run memory_size binary Hsize Hbin) as Hrun.
  cbv zeta in Hrun.
  exists (LoadConst 10 0), (LoadConst 5 1), (GTE 0 0 1 2 0), binary.
  do 3 eexists.
  split; [reflexivity|]. split; [reflexivity|]. split; [reflexivity|].
  split; [exact Hbin|]. split; [reflexivity|].
  split; [exact Hrun|]. apply scenario_B_cell2. exact Hsize.
Qed.

(** C3, as stated, fails on the default machine: the run of the program does
    not end with [memory[2] == 1]. *)
Lemma scenario_B_counterexample : ~ scenario_B_outcome default_memory_size 1.
Proof.
  intros H. apply scenario_B_only in H; [discriminate|].
  unfold default_memory_size. lia.
Qed.

(** ** Sample evaluations *)

Example to_bytes_load_42_3 : to_bytes (LoadConst 42 3) = Ok load_42_3.
Proof. vm_compute. reflexivity. Qed.

(** Why the constructors check ranges: on an object built around them, a
    constant of twelve bits runs into the address field, and only a value
    past the last byte makes [int.to_bytes] fail. *)
Example to_bytes_unchecked_overlap :
  to_bytes (LoadConst 2048 0) = to_bytes (LoadConst 0 1).
Proof. vm_compute. reflexivity. Qed.

Example to_bytes_unchecked_overflow :
  to_bytes (LoadConst 0 1073741824)
  = Raise (OverflowError "int too big to convert").
Proof. vm_compute. reflexivity. Qed.

Example read_bits_past_the_end :
  read_bits 7 11 {| data_memory := []; code_memory := [x6f]; pc := 0 |}
  = (Ok 0, {| data_memory := []; code_memory := [x6f]; pc := 0 |}).
Proof. vm_compute. reflexivity. Qed.

Example negative_subscript : list_getitem [1; 2; 3] (-1) = Ok 3.
Proof. reflexivity. Qed.

Example subscript_out_of_range :
  list_setitem [1; 2; 3] 3 0 = Raise (IndexError "list assignment index out of range").
Proof. reflexivity. Qed.

(** Scenario B on sixteen cells: the three instructions execute and leave
    [0; 5; 0; ...]. *)
Example scenario_B_on_16_cells :
  assemble_and_run 16 [LoadConst 10 0; LoadConst 5 1; GTE 0 0 1 2 0]
  = Some (Ok 3,
          {| data_memory := [0; 5; 0; 0; 0; 0; 0; 0; 0; 0; 0; 0; 0; 0; 0; 0];
             code_memory :=
               [x6f; x05; x00; x00; x00; x00;
                xef; x02; x04; x00; x00; x00;
                x44; x00; x00; x00; x00; x02; x00; x00; x10; x00; x00; x00; x00];
             pc := 25 |}).
Proof. vm_compute. reflexivity. Qed.

(** On ten cells the Gte subscript [memory[0] + 0 = 10] is out of range: the
    run is left by an [IndexError], with the two loads done and [pc] still at
    the Gte. *)
Example scenario_B_on_10_cells :
  match assemble_and_run 10 [LoadConst 10 0; LoadConst 5 1; GTE 0 0 1 2 0] with
  | Some (r, vm) => Some (r, data_memory vm, pc vm)
  | None => None
  end
  = Some (Raise (IndexError "list index out of range"),
          [10; 5; 0; 0; 0; 0; 0; 0; 0; 0], 12).
Proof. vm_compute. reflexivity. Qed.

(** [LOAD_CONST 42 3; WRITE_MEM 3 4] copies the constant to cell 4. *)
Example write_mem_copies :
  match assemble_and_run 8 [LoadConst 42 3; WriteMem 3 4] with
  | Some (r, vm) => Some (r, data_memory vm, pc vm)
  | None => None
  end
  = Some (Ok 2, [0; 0; 0; 42; 42; 0; 0; 0], 14).
Proof. vm_compute. reflexivity. Qed.

(** [LOAD_CONST 7 0; LOAD_CONST 3 5; READ_MEM 2 0 6] reads cell
    [memory[0] + 2 = 9], still zero, into cell 6. *)
Example read_mem_indirect :
  match assemble_and_run 12 [LoadConst 7 0; LoadConst 3 5; ReadMem 2 0 6] with
  | Some (r, vm) => Some (r, data_memory vm, pc vm)
  | None => None
  end
  = Some (Ok 3, [7; 0; 0; 0; 0; 3; 0; 0; 0; 0; 0; 0], 21).
Proof. vm_compute. reflexivity. Qed.

(** A run stopped by an unknown opcode keeps the write of the load before
    it, and leaves [pc] on the offending byte. *)
Example junk_after_load :
  run {| data_memory := [0; 0; 0; 0]; code_memory := load_42_3_then_junk; pc := 0 |}
  = Some (Raise (unknown_opcode 0 6),
          {| data_memory := [0; 0; 0; 42];
             code_memory := load_42_3_then_junk;
             pc := 6 |}).
Proof. vm_compute. reflexivity. Qed.

(** ** Instances on concrete inputs *)

Lemma encode_then_read_bits_roundtrip_witness :
  exists bs,
    to_bytes (GTE 255 67108863 0 67108862 1) = Ok bs
    /\ reads_back (GTE 255 67108863 0 67108862 1)
         {| data_memory := [];
            code_memory := [x01; x02] ++ bs ++ [x03];
            pc := Z.of_nat (List.length [x01; x02]) |}.
Proof.
  apply (encode_then_read_bits_roundtrip
           (GTE 255 67108863 0 67108862 1) [x01; x02] [x03] []).
  simpl. lia.
Defined.

Lemma gte_step_semantics_witness :
  exists (bs : list byte) (s : string) (result : Z),
    to_bytes (GTE 1 2 4 2 3) = Ok bs
    /\ step {| data_memory := [3; 7; 0; 9; 5];
               code_memory := [] ++ bs ++ [];
               pc := Z.of_nat (List.length (@nil byte)) |}
       = (Ok (Some s),
          {| data_memory := <[Z.to_nat (0 + 3) := result]> [3; 7; 0; 9; 5];
             code_memory := [] ++ bs ++ [];
             pc := Z.of_nat (List.length (@nil byte)) + 13 |})
    /\ (7 >= 5 -> result = 1)
    /\ (7 < 5 -> result = 0).
Proof.
  apply (gte_step_semantics [] [] [3; 7; 0; 9; 5] 1 2 4 2 3 0 0 7 5).
  - simpl. lia.
  - reflexivity.
  - lia.
  - reflexivity.
  - reflexivity.
  - reflexivity.
  - simpl. lia.
Defined.

Lemma scenario_B_result_witness : scenario_B_outcome default_memory_size 0.
Proof.
  apply (scenario_B_result default_memory_size).
  unfold default_memory_size. lia.
Defined.

Lemma read_bits_extracts_buffer_bits_witness :
  let vm := {| data_memory := []; code_memory := load_42_3; pc := 0 |} in
  exists v,
    read_bits 18 26 vm = (Ok v, vm)
    /\ 0 <= v < 2 ^ 26
    /\ forall i, 0 <= i < 26 ->
         exists b,
           code_memory vm !! Z.to_nat ((8 * pc vm + 18 + i) / 8) = Some b
           /\ Z.testbit v i = Z.testbit (byte_to_Z b) ((8 * pc vm + 18 + i) mod 8).
Proof.
  intros vm.
  apply (read_bits_extracts_buffer_bits vm 18 26).
  - lia.
  - lia.
  - vm_compute. discriminate.
  - vm_compute. reflexivity.
Defined.

Lemma to_bytes_fixed_length_witness :
  exists bs,
    to_bytes (GTE 255 67108863 0 67108862 1) = Ok bs /\ List.length bs = 13%nat.
Proof.
  apply (to_bytes_fixed_length (GTE 255 67108863 0 67108862 1)).
  right; right; right. exists 255, 67108863, 0, 67108862, 1. reflexivity.
Defined.

Lemma range_enforcement_witness :
  LoadConstInstruction 2048 67108863 = range_error "Константа" 2048 2047
  /\ LoadConstInstruction 2047 67108863 = Ok (LoadConst 2047 67108863)
  /\ LoadConstInstruction 2047 67108864 = range_error "Адрес" 67108864 67108863
  /\ LoadConstInstruction 2047 67108863 = Ok (LoadConst 2047 67108863).
Proof.
  apply (range_enforcement 2047 255 0 67108863 0 1); lia.
Defined.

Lemma pc_advances_and_run_halts_witness :
  let vm := {| data_memory := [0; 0; 0; 0]; code_memory := load_42_3; pc := 0 |} in
  let vm' := {| data_memory := [0; 0; 0; 42]; code_memory := load_42_3; pc := 6 |} in
  ((read_bits 0 7 vm = (Ok 111, vm) /\ pc vm' = pc vm + 6)
   \/ (read_bits 0 7 vm = (Ok 40, vm) /\ pc vm' = pc vm + 9)
   \/ (read_bits 0 7 vm = (Ok 101, vm) /\ pc vm' = pc vm + 8)
   \/ (read_bits 0 7 vm = (Ok 68, vm) /\ pc vm' = pc vm + 13))
  /\ pc vm < pc vm'.
Proof.
  intros vm vm'.
  assert (Hst : stepped vm vm') by (eexists; vm_compute; reflexivity).
  destruct pc_advances_and_run_halts as (_ & Hinc & Hmono & _).
  split.
  - apply (Hinc vm vm'). exact Hst.
  - apply (Hmono vm vm'). apply tc_once. exact Hst.
Defined.

Lemma unknown_opcode_is_fatal_witness :
  let vm := {| data_memory := [0; 0; 0; 42];
               code_memory := load_42_3_then_junk;
               pc := 6 |} in
  step vm = (Raise (unknown_opcode 0 6), vm)
  /\ forall vm0 : VirtualMachine,
       0 <= pc vm0 -> rtc stepped vm0 vm ->
       run vm0 = Some (Raise (unknown_opcode 0 6), vm).
Proof.
  intros vm.
  apply (unknown_opcode_is_fatal vm 0).
  - vm_compute. reflexivity.
  - vm_compute. reflexivity.
  - lia.
  - lia.
  - lia.
  - lia.
Defined.

Lemma step_writes_one_cell_witness :
  let vm := {| data_memory := [0; 0; 0; 0]; code_memory := load_42_3; pc := 0 |} in
  let vm' := {| data_memory := [0; 0; 0; 42]; code_memory := load_42_3; pc := 6 |} in
  exists (target value : Z) (k : nat),
    written_address vm target
    /\ stored_value vm value
    /\ list_index (List.length (data_memory vm)) target = Some k
    /\ data_memory vm' = <[k := value]> (data_memory vm)
    /\ list_getitem (data_memory vm') target = Ok value
    /\ (forall j : nat, j <> k -> data_memory vm' !! j = data_memory vm !! j)
    /\ List.length (data_memory vm') = List.length (data_memory vm)
    /\ code_memory vm' = code_memory vm.
Proof.
  intros vm vm'.
  apply (step_writes_one_cell vm vm').
  eexists. vm_compute. reflexivity.
Defined.

Lemma memory_cells_stay_in_11_bits_witness :
  Forall (fun x => 0 <= x <= 2047) [0; 0; 0; 42].
Proof.
  apply (memory_cells_stay_in_11_bits 4 load_42_3
           {| data_memory := [0; 0; 0; 0]; code_memory := load_42_3; pc := 0 |}
           {| data_memory := [0; 0; 0; 42]; code_memory := load_42_3; pc := 6 |}).
  - reflexivity.
  - apply rtc_once. eexists. vm_compute. reflexivity.
Defined.

(** * Further properties *)

(** ** Binaries of whole programs *)

Section Binary.

Lemma to_bytes_spec (i : Instruction) :
  operands_in_range i ->
  exists bs,
    to_bytes i = Ok bs
    /\ List.length bs = byte_length i
    /\ forall (pre post : list byte) (mem : list Z),
         reads_back i {| data_memory := mem;
                         code_memory := pre ++ bs ++ post;
                         pc := Z.of_nat (List.length pre) |}.
Proof.
  intros Hr. pose proof (to_bytes_in_range i Hr) as Hb.
  destruct i as [c a | o s d | s d | o1 a1 a2 r o2]; simpl in Hr;
    rewrite Hb; eexists; (split; [reflexivity|]);
    (split; [apply length_le_bytes|]); intros pre post mem; unfold reads_back.
  - destruct Hr as (Hc & Ha). repeat split; read_field.
  - destruct Hr as (Ho & Hs & Hd). repeat split; read_field.
  - destruct Hr as (Hs & Hd). repeat split; read_field.
  - destruct Hr as (Ho1 & Ha1 & Ha2 & Hres & Ho2). repeat split; read_field.
Qed.

Lemma to_binary_from_acc (acc : list byte) (instructions : list Instruction) :
  to_binary_from acc instructions
  = match to_binary instructions with
    | Ok binary => Ok (acc ++ binary)
    | Raise e => Raise e
    end.
Proof.
  unfold to_binary. revert acc.
  induction instructions as [|i rest IH]; intros acc; simpl.
  - rewrite app_nil_r. reflexivity.
  - destruct (to_bytes i) as [bs|e]; [|reflexivity].
    rewrite (IH (acc ++ bs)), (IH bs).
    destruct (to_binary_from [] rest); [|reflexivity].
    rewrite app_assoc. reflexivity.
Qed.

Lemma to_binary_cons (i : Instruction) (rest : list Instruction) :
  to_binary (i :: rest)
  = match to_bytes i with
    | Ok bs =>
        match to_binary rest with
        | Ok binary => Ok (bs ++ binary)
        | Raise e => Raise e
        end
    | Raise e => Raise e
    end.
Proof.
  unfold to_binary at 1. simpl. destruct (to_bytes i) as [bs|e]; [|reflexivity].
  apply to_binary_from_acc.
Qed.

Lemma to_binary_app_Ok (p q : list Instruction) (x y : list byte) :
  to_binary p = Ok x -> to_binary q = Ok y -> to_binary (p ++ q) = Ok (x ++ y).
Proof.
  revert x. induction p as [|i p IH]; intros x Hp Hq.
  - injection Hp as <-. exact Hq.
  - change ((i :: p) ++ q) with (i :: (p ++ q)).
    rewrite to_binary_cons in Hp |- *.
    destruct (to_bytes i) as [bs|e]; [|discriminate].
    destruct (to_binary p) as [x'|e]; [|discriminate].
    injection Hp as <-. rewrite (IH x' eq_refl Hq), app_assoc. reflexivity.
Qed.

Lemma to_binary_in_range (instructions : list Instruction) :
  Forall operands_in_range instructions ->
  exists binary,
    to_binary instructions = Ok binary
    /\ List.length binary = program_length instructions.
Proof.
  induction 1 as [|i rest Hi _ IH].
  - exists []. split; reflexivity.
  - destruct IH as (binary & Hb & Hlen).
    destruct (to_bytes_spec i Hi) as (bs & Hbs & Hl & _).
    exists (bs ++ binary). rewrite to_binary_cons, Hbs, Hb.
    split; [reflexivity|].
    rewrite length_app, Hl, Hlen. reflexivity.
Qed.

End Binary.

(** X1. The binary of two lists of instructions put end to end is the
    binary of the first followed by the binary of the second, with nothing
    in between; and when an instruction of the first list fails to encode,
    its exception is the one raised, whatever follows. *)
Theorem to_binary_app (p q : list Instruction) :
  to_binary (p ++ q)
  = match to_binary p with
    | Ok x =>
        match to_binary q with
        | Ok y => Ok (x ++ y)
        | Raise e => Raise e
        end
    | Raise e => Raise e
    end.
Proof.
  induction p as [|i p IH].
  - simpl. destruct (to_binary q); reflexivity.
  - change ((i :: p) ++ q) with (i :: (p ++ q)).
    rewrite !to_binary_cons, IH.
    destruct (to_bytes i) as [bs|e]; [|reflexivity].
    destruct (to_binary p) as [x|e]; [|reflexivity].
    destruct (to_binary q) as [y|e]; [|reflexivity].
    rewrite app_assoc. reflexivity.
Qed.

(** X2. A list of instructions that all came out of the constructors is
    always assembled: [to_binary] raises nothing, and the binary has exactly
    as many bytes as the fixed sizes of its instructions add up to (6 for a
    LoadConst, 9 for a ReadMem, 8 for a WriteMem, 13 for a Gte). *)
Theorem to_binary_constructed (instructions : list Instruction) :
  Forall constructed instructions ->
  exists binary,
    to_binary instructions = Ok binary
    /\ List.length binary = program_length instructions.
Proof.
  intros Hall. apply to_binary_in_range.
  eapply Forall_impl; [exact Hall|]. exact constructed_in_range.
Qed.

(** ** Exceptions of a step *)

Section Failures.

Lemma subscript_error_small (i : Z) (msg : string) :
  - index_limit <= i < index_limit -> subscript_error i msg = IndexError msg.
Proof.
  intros Hi. unfold subscript_error.
  destruct (Z.ltb_spec i (- index_limit)); [lia|].
  destruct (Z.leb_spec index_limit i); [lia|reflexivity].
Qed.




Lemma list_index_None (n : nat) (i : Z) :
  list_index n i = None <-> i < - Z.of_nat n \/ Z.of_nat n <= i.
Proof.
  unfold list_index. destruct (Z.ltb_spec i 0).
  - destruct (Z.leb_spec 0 (i + Z.of_nat n)); simpl.
    + destruct (Z.ltb_spec (i + Z.of_nat n) (Z.of_nat n)); [|lia].
      split; [discriminate|lia].
    + split; [lia|reflexivity].
  - destruct (Z.leb_spec 0 i); [|lia]. simpl.
    destruct (Z.ltb_spec i (Z.of_nat n)); split; try discriminate; try lia;
      reflexivity.
Qed.








End Failures.



(** A subscript computed from a cell that holds [2^63] does not fit an
    index: ReadMem through such a cell is left by that [IndexError], the
    state untouched. *)
Example read_mem_through_huge_cell :
  assemble_and_run_on [9223372036854775808; 7; 8; 9] [ReadMem 0 0 3]
  = Some (Raise (IndexError "cannot fit 'int' into an index-sized integer"),
          [9223372036854775808; 7; 8; 9], 0).
Proof. vm_compute. reflexivity. Qed.

(** The same through a cell that holds 4, one past the last subscript. *)
Example read_mem_through_large_cell :
  assemble_and_run_on [4; 7; 8; 9] [ReadMem 0 0 3]
  = Some (Raise (IndexError "list index out of range"), [4; 7; 8; 9], 0).
Proof. vm_compute. reflexivity. Qed.

(** ** Assembled programs under the interpreter *)

Section Programs.


Lemma byte_length_pos (i : Instruction) : (6 <= byte_length i)%nat.
Proof. destruct i; simpl; lia. Qed.

(** The binary of [done ++ i :: rest], cut at the two ends of [i]. *)
Lemma to_binary_split (done rest : list Instruction) (i : Instruction)
    (binary : list byte) :
  Forall constructed (done ++ i :: rest) ->
  to_binary (done ++ i :: rest) = Ok binary ->
  exists x bs y,
    binary = x ++ bs ++ y
    /\ List.length x = program_length done
    /\ List.length bs = byte_length i
    /\ List.length y = program_length rest
    /\ forall mem,
         reads_back i {| data_memory := mem;
                         code_memory := binary;
                         pc := Z.of_nat (program_length done) |}.
Proof.
  intros Hall Hbin.
  apply Forall_app in Hall as [Hdone Hrest].
  apply Forall_cons in Hrest as [Hi Hrest].
  assert (Hr : forall l, Forall constructed l -> Forall operands_in_range l)
    by (intros l Hl; eapply Forall_impl; [exact Hl|exact constructed_in_range]).
  destruct (to_binary_in_range done (Hr _ Hdone)) as (x & Hx & Hlx).
  destruct (to_binary_in_range rest (Hr _ Hrest)) as (y & Hy & Hly).
  destruct (to_bytes_spec i (constructed_in_range i Hi)) as (bs & Hbs & Hl & Hrb).
  assert (Hir : to_binary (i :: rest) = Ok (bs ++ y))
    by (rewrite to_binary_cons, Hbs, Hy; reflexivity).
  rewrite (to_binary_app_Ok _ _ _ _ Hx Hir) in Hbin.
  injection Hbin as <-.
  exists x, bs, y. repeat split; try assumption.
  intros mem. rewrite <- Hlx. apply Hrb.
Qed.



End Programs.

(** X4. In the binary of a program of constructed instructions, every
    instruction is found where the sizes of its predecessors put it: with
    [pc] at the sum of the byte lengths of the instructions before it,
    [read_bits] at the layout offsets returns its opcode and its operands.
    The boundaries between instructions need no marker. *)
Theorem assembled_instruction_reads_back
    (done rest : list Instruction) (i : Instruction)
    (binary : list byte) (mem : list Z) :
  Forall constructed (done ++ i :: rest) ->
  to_binary (done ++ i :: rest) = Ok binary ->
  reads_back i {| data_memory := mem;
                  code_memory := binary;
                  pc := Z.of_nat (program_length done) |}.
Proof.
  intros Hall Hbin.
  destruct (to_binary_split done rest i binary Hall Hbin)
    as (x & bs & y & _ & _ & _ & _ & Hrb).
  apply Hrb.
Qed.


(** ** Unique decoding *)

(** X6. Two instructions with in-range operands whose encodings begin the
    same byte buffer are the same instruction: the encoding is injective,
    and no encoding is the beginning of another. *)
Theorem to_bytes_prefix_free
    (i j : Instruction) (bi bj post_i post_j : list byte) :
  operands_in_range i -> operands_in_range j ->
  to_bytes i = Ok bi -> to_bytes j = Ok bj ->
  bi ++ post_i = bj ++ post_j ->
  i = j.
Proof.
  intros Hi Hj Hbi Hbj Heq.
  destruct (to_bytes_spec i Hi) as (bi' & Hbi' & _ & Hri).
  destruct (to_bytes_spec j Hj) as (bj' & Hbj' & _ & Hrj).
  assert (bi' = bi) by congruence. assert (bj' = bj) by congruence. subst.
  specialize (Hri [] post_i []). specialize (Hrj [] post_j []).
  simpl app in Hri, Hrj. rewrite Heq in Hri.
  destruct i, j; simpl in Hri, Hrj;
    repeat match goal with H : _ /\ _ |- _ => destruct H end;
    try congruence.
Qed.

Lemma to_bytes_prefix_free_witness : LoadConst 42 3 = LoadConst 42 3.
Proof.
  apply (to_bytes_prefix_free (LoadConst 42 3) (LoadConst 42 3)
           load_42_3 load_42_3 [x00] [x00]).
  - simpl. lia.
  - simpl. lia.
  - vm_compute. reflexivity.
  - vm_compute. reflexivity.
  - reflexivity.
Defined.

(** X7. The bits of the last byte that no field occupies are zero: bits
    44-47 of a LoadConst, 67-71 of a ReadMem, 59-63 of a WriteMem and 101-103
    of a Gte read back as 0, whatever the operands. *)
Theorem unused_bits_are_zero
    (i : Instruction) (pre post : list byte) (mem : list Z) :
  operands_in_range i ->
  exists bs,
    to_bytes i = Ok bs
    /\ let vm := {| data_memory := mem;
                    code_memory := pre ++ bs ++ post;
                    pc := Z.of_nat (List.length pre) |} in
       match i with
       | LoadConst _ _ => read_bits 44 4 vm = (Ok 0, vm)
       | ReadMem _ _ _ => read_bits 67 5 vm = (Ok 0, vm)
       | WriteMem _ _ => read_bits 59 5 vm = (Ok 0, vm)
       | GTE _ _ _ _ _ => read_bits 101 3 vm = (Ok 0, vm)
       end.
Proof.
  intros Hr. pose proof (to_bytes_in_range i Hr) as Hb.
  destruct i as [c a | o s d | s d | o1 a1 a2 r o2]; simpl in Hr;
    rewrite Hb; eexists; (split; [reflexivity|]); cbv zeta.
  - destruct Hr as (Hc & Ha). read_field.
  - destruct Hr as (Ho & Hs & Hd). read_field.
  - destruct Hr as (Hs & Hd). read_field.
  - destruct Hr as (Ho1 & Ha1 & Ha2 & Hres & Ho2). read_field.
Qed.

Lemma unused_bits_are_zero_witness :
  exists bs,
    to_bytes (GTE 255 67108863 67108863 67108863 255) = Ok bs
    /\ read_bits 101 3
         {| data_memory := []; code_memory := [] ++ bs ++ [xff];
            pc := Z.of_nat (List.length (@nil byte)) |}
       = (Ok 0, {| data_memory := []; code_memory := [] ++ bs ++ [xff];
                   pc := Z.of_nat (List.length (@nil byte)) |}).
Proof.
  apply (unused_bits_are_zero (GTE 255 67108863 67108863 67108863 255) [] [xff] []).
  simpl. lia.
Defined.

(** ** Semantics of LoadConst, ReadMem and WriteMem *)

Section Semantics.

Lemma stepped_read_mem (vm : VirtualMachine)
    (offset src_addr dst_addr base value : Z) :
  pc vm < Z.of_nat (List.length (code_memory vm)) ->
  bits_at vm 0 7 = 40 ->
  bits_at vm 7 8 = offset ->
  bits_at vm 15 26 = src_addr ->
  bits_at vm 41 26 = dst_addr ->
  list_getitem (data_memory vm) src_addr = Ok base ->
  list_getitem (data_memory vm) (base + offset) = Ok value ->
  0 <= dst_addr < Z.of_nat (List.length (data_memory vm)) ->
  stepped vm (advance vm (<[Z.to_nat dst_addr := value]> (data_memory vm)) 9).
Proof.
  intros Hpc B0 B1 B2 B3 H1 H2 Hd. apply effect_stepped; [exact Hpc|].
  apply effect_read_mem with base value.
  - exact B0.
  - rewrite B2. exact H1.
  - rewrite B1. exact H2.
  - rewrite B3. apply list_setitem_nonneg. exact Hd.
Qed.

Lemma stepped_write_mem (vm : VirtualMachine) (src_addr dst_addr value : Z) :
  pc vm < Z.of_nat (List.length (code_memory vm)) ->
  bits_at vm 0 7 = 101 ->
  bits_at vm 7 26 = src_addr ->
  bits_at vm 33 26 = dst_addr ->
  list_getitem (data_memory vm) src_addr = Ok value ->
  0 <= dst_addr < Z.of_nat (List.length (data_memory vm)) ->
  stepped vm (advance vm (<[Z.to_nat dst_addr := value]> (data_memory vm)) 8).
Proof.
  intros Hpc B0 B1 B2 H1 Hd. apply effect_stepped; [exact Hpc|].
  apply effect_write_mem with value.
  - exact B0.
  - rewrite B1. exact H1.
  - rewrite B2. apply list_setitem_nonneg. exact Hd.
Qed.

(** The state with [pc] on an encoding, and the facts every proof below
    starts from. *)
Lemma encoded_state (i : Instruction) (pre post : list byte) (mem : list Z) :
  operands_in_range i ->
  exists bs,
    to_bytes i = Ok bs
    /\ let vm := {| data_memory := mem;
                    code_memory := pre ++ bs ++ post;
                    pc := Z.of_nat (List.length pre) |} in
       pc vm < Z.of_nat (List.length (code_memory vm)) /\ reads_back i vm.
Proof.
  intros Hr. destruct (to_bytes_spec i Hr) as (bs & Hbs & Hl & Hrb).
  exists bs. split; [exact Hbs|]. cbv zeta. split; [|apply Hrb].
  simpl. rewrite !length_app, Hl. pose proof (byte_length_pos i). lia.
Qed.

End Semantics.

(** X8. One step on an encoded LoadConst with in-range operands.  When
    [address] is below the size of the data memory, the step stores
    [constant] at [memory[address]], changes no other cell and moves [pc] by
    6.  When it is not, the step raises the [IndexError] of the assignment
    and leaves the state as it was: the 26-bit address field reaches far
    beyond the 100000 cells of the default machine. *)
Theorem load_const_step_semantics
    (pre post : list byte) (mem : list Z) (constant address : Z) :
  operands_in_range (LoadConst constant address) ->
  exists bs,
    to_bytes (LoadConst constant address) = Ok bs
    /\ let vm := {| data_memory := mem;
                    code_memory := pre ++ bs ++ post;
                    pc := Z.of_nat (List.length pre) |} in
       (address < Z.of_nat (List.length mem) ->
        exists s,
          step vm
          = (Ok (Some s),
             {| data_memory := <[Z.to_nat address := constant]> mem;
                code_memory := pre ++ bs ++ post;
                pc := Z.of_nat (List.length pre) + 6 |}))
       /\ (Z.of_nat (List.length mem) <= address ->
           step vm
           = (Raise (IndexError "list assignment index out of range"), vm)).
Proof.
  intros Hr.
  destruct (encoded_state _ pre post mem Hr) as (bs & Hbs & Hpc & Hrb).
  exists bs. split; [exact Hbs|]. cbv zeta.
  set (vm := {| data_memory := mem; code_memory := pre ++ bs ++ post;
                pc := Z.of_nat (List.length pre) |}) in *.
  simpl in Hr. destruct Hr as (Hc & Ha).
  destruct Hrb as (B0 & B1 & B2).
  apply read_bits_value in B0, B1, B2; try lia.
  split.
  - intros Hlt.
    destruct (stepped_load_const vm constant address Hpc B0 B1 B2) as [s Hs];
      [simpl; lia|].
    exists s. exact Hs.
  - intros Hge. rewrite (step_dispatch vm Hpc). cbv zeta. rewrite B0.
    change (111 =? 111) with true. cbv iota.
    unfold bind at 1. unfold execute_load_const.
    rewrite !bind_read_bits by lia. rewrite bind_mem_set, B1, B2.
    unfold list_setitem.
    rewrite (proj2 (list_index_None _ address)) by (simpl; lia).
    rewrite subscript_error_small by (unfold index_limit; lia).
    reflexivity.
Qed.

Lemma load_const_step_semantics_witness :
  exists bs,
    to_bytes (LoadConst 42 3) = Ok bs
    /\ let vm := {| data_memory := [0; 0; 0];
                    code_memory := [] ++ bs ++ [];
                    pc := Z.of_nat (List.length (@nil byte)) |} in
       (3 < Z.of_nat (List.length [0; 0; 0]) ->
        exists s,
          step vm
          = (Ok (Some s),
             {| data_memory := <[Z.to_nat 3 := 42]> [0; 0; 0];
                code_memory := [] ++ bs ++ [];
                pc := Z.of_nat (List.length (@nil byte)) + 6 |}))
       /\ (Z.of_nat (List.length [0; 0; 0]) <= 3 ->
           step vm
           = (Raise (IndexError "list assignment index out of range"), vm)).
Proof.
  apply (load_const_step_semantics [] [] [0; 0; 0] 42 3).
  simpl. lia.
Defined.

(** X9. One step on an encoded ReadMem with in-range operands, when the
    subscripts are defined: with [base = memory[src_addr]] and
    [value = memory[base + offset]] in the sense of list subscripts, and
    [dst_addr] below the size of the data memory, the step stores [value] at
    [memory[dst_addr]], changes no other cell and moves [pc] by 9.  The
    source is indirect, the destination direct. *)
Theorem read_mem_step_semantics
    (pre post : list byte) (mem : list Z)
    (offset src_addr dst_addr base value : Z) :
  operands_in_range (ReadMem offset src_addr dst_addr) ->
  list_getitem mem src_addr = Ok base ->
  list_getitem mem (base + offset) = Ok value ->
  dst_addr < Z.of_nat (List.length mem) ->
  exists (bs : list byte) (s : string),
    to_bytes (ReadMem offset src_addr dst_addr) = Ok bs
    /\ step {| data_memory := mem;
               code_memory := pre ++ bs ++ post;
               pc := Z.of_nat (List.length pre) |}
       = (Ok (Some s),
          {| data_memory := <[Z.to_nat dst_addr := value]> mem;
             code_memory := pre ++ bs ++ post;
             pc := Z.of_nat (List.length pre) + 9 |}).
Proof.
  intros Hr H1 H2 Hd.
  destruct (encoded_state _ pre post mem Hr) as (bs & Hbs & Hpc & Hrb).
  set (vm := {| data_memory := mem; code_memory := pre ++ bs ++ post;
                pc := Z.of_nat (List.length pre) |}) in *.
  simpl in Hr. destruct Hr as (Ho & Hs & Hdr).
  destruct Hrb as (B0 & B1 & B2 & B3).
  apply read_bits_value in B0, B1, B2, B3; try lia.
  destruct (stepped_read_mem vm offset src_addr dst_addr base value
              Hpc B0 B1 B2 B3 H1 H2) as [s Hst]; [simpl; lia|].
  exists bs, s. split; [exact Hbs|exact Hst].
Qed.

Lemma read_mem_step_semantics_witness :
  exists (bs : list byte) (s : string),
    to_bytes (ReadMem 2 0 3) = Ok bs
    /\ step {| data_memory := [1; 7; 8; 9];
               code_memory := [] ++ bs ++ [];
               pc := Z.of_nat (List.length (@nil byte)) |}
       = (Ok (Some s),
          {| data_memory := <[Z.to_nat 3 := 9]> [1; 7; 8; 9];
             code_memory := [] ++ bs ++ [];
             pc := Z.of_nat (List.length (@nil byte)) + 9 |}).
Proof.
  apply (read_mem_step_semantics [] [] [1; 7; 8; 9] 2 0 3 1 9).
  - simpl. lia.
  - reflexivity.
  - reflexivity.
  - simpl. lia.
Defined.

(** X10. One step on an encoded WriteMem with in-range operands, both
    addresses below the size of the data memory: the step copies
    [memory[src_addr]] to [memory[dst_addr]], changes no other cell and moves
    [pc] by 8.  Both addresses are direct. *)
Theorem write_mem_step_semantics
    (pre post : list byte) (mem : list Z) (src_addr dst_addr value : Z) :
  operands_in_range (WriteMem src_addr dst_addr) ->
  mem !! Z.to_nat src_addr = Some value ->
  dst_addr < Z.of_nat (List.length mem) ->
  exists (bs : list byte) (s : string),
    to_bytes (WriteMem src_addr dst_addr) = Ok bs
    /\ step {| data_memory := mem;
               code_memory := pre ++ bs ++ post;
               pc := Z.of_nat (List.length pre) |}
       = (Ok (Some s),
          {| data_memory := <[Z.to_nat dst_addr := value]> mem;
             code_memory := pre ++ bs ++ post;
             pc := Z.of_nat (List.length pre) + 8 |}).
Proof.
  intros Hr H1 Hd.
  destruct (encoded_state _ pre post mem Hr) as (bs & Hbs & Hpc & Hrb).
  set (vm := {| data_memory := mem; code_memory := pre ++ bs ++ post;
                pc := Z.of_nat (List.length pre) |}) in *.
  simpl in Hr. destruct Hr as (Hs & Hdr).
  destruct Hrb as (B0 & B1 & B2).
  apply read_bits_value in B0, B1, B2; try lia.
  destruct (stepped_write_mem vm src_addr dst_addr value Hpc B0 B1 B2)
    as [s Hst]; [apply list_getitem_nonneg; [lia|exact H1] | simpl; lia |].
  exists bs, s. split; [exact Hbs|exact Hst].
Qed.

Lemma write_mem_step_semantics_witness :
  exists (bs : list byte) (s : string),
    to_bytes (WriteMem 3 1) = Ok bs
    /\ step {| data_memory := [0; 0; 0; 42];
               code_memory := [] ++ bs ++ [];
               pc := Z.of_nat (List.length (@nil byte)) |}
       = (Ok (Some s),
          {| data_memory := <[Z.to_nat 1 := 42]> [0; 0; 0; 42];
             code_memory := [] ++ bs ++ [];
             pc := Z.of_nat (List.length (@nil byte)) + 8 |}).
Proof.
  apply (write_mem_step_semantics [] [] [0; 0; 0; 42] 3 1 42).
  - simpl. lia.
  - reflexivity.
  - simpl. lia.
Defined.

(** ** What a run leaves *)

Section RunResult.




End RunResult.



(** ** Reads past the end of the buffer *)

Section Padding.

Lemma byte_to_Z_x00 : byte_to_Z x00 = 0.
Proof. reflexivity. Qed.

Lemma buffer_bit_zero_padding (buf : list byte) (n : nat) (k : Z) :
  0 <= k -> buffer_bit (buf ++ replicate n x00) k = buffer_bit buf k.
Proof.
  intros Hk. unfold buffer_bit.
  assert (Hq : 0 <= k / 8) by (apply Z.div_pos; lia).
  destruct (decide (Z.to_nat (k / 8) < List.length buf)%nat) as [Hlt|Hge].
  - rewrite lookup_app_l by exact Hlt. reflexivity.
  - rewrite lookup_app_r by lia.
    rewrite (proj2 (lookup_ge_None buf (Z.to_nat (k / 8)))) by lia.
    destruct (replicate n x00 !! _) as [b|] eqn:E; [|reflexivity].
    apply lookup_replicate in E as [-> _].
    rewrite byte_to_Z_x00. apply Z.bits_0.
Qed.

End Padding.

(** X12. [read_bits] does not tell a buffer that ends from one that goes on
    with zero bytes: for [pc >= 0], [start_bit >= 0] and [length >= 0] it
    raises nothing and returns the same value on a buffer and on that buffer
    with any number of zero bytes appended.  An instruction cut short by the
    end of the binary is therefore decoded as if it were padded with
    zeros. *)
Theorem read_bits_zero_padding
    (mem : list Z) (code : list byte) (p start_bit length : Z) (n : nat) :
  0 <= p -> 0 <= start_bit -> 0 <= length ->
  exists v,
    read_bits start_bit length
      {| data_memory := mem; code_memory := code; pc := p |}
    = (Ok v, {| data_memory := mem; code_memory := code; pc := p |})
    /\ read_bits start_bit length
         {| data_memory := mem; code_memory := code ++ replicate n x00; pc := p |}
       = (Ok v, {| data_memory := mem;
                   code_memory := code ++ replicate n x00; pc := p |}).
Proof.
  intros Hp Hs Hl.
  set (vm := {| data_memory := mem; code_memory := code; pc := p |}).
  set (vmz := {| data_memory := mem; code_memory := code ++ replicate n x00;
                 pc := p |}).
  assert (Hlo : 0 <= p + start_bit / 8)
    by (pose proof (Z.div_pos start_bit 8); lia).
  destruct (read_bits_bits vm start_bit length) as (v & Hrd & Hv & Hbits);
    try assumption.
  destruct (read_bits_bits vmz start_bit length) as (w & Hrdz & Hw & Hbitsz);
    try assumption.
  exists v. split; [exact Hrd|]. rewrite Hrdz. f_equal. f_equal.
  apply Z.bits_inj'. intros i Hi.
  destruct (Z.lt_ge_cases i length) as [Hlt|Hge].
  - rewrite Hbits, Hbitsz by lia. simpl.
    apply buffer_bit_zero_padding. lia.
  - rewrite (testbit_above v length i), (testbit_above w length i) by lia.
    reflexivity.
Qed.

Lemma read_bits_zero_padding_witness :
  exists v,
    read_bits 7 11 {| data_memory := []; code_memory := [x6f]; pc := 0 |}
    = (Ok v, {| data_memory := []; code_memory := [x6f]; pc := 0 |})
    /\ read_bits 7 11
         {| data_memory := []; code_memory := [x6f] ++ replicate 5 x00; pc := 0 |}
       = (Ok v, {| data_memory := [];
                   code_memory := [x6f] ++ replicate 5 x00; pc := 0 |}).
Proof.
  apply (read_bits_zero_padding [] [x6f] 0 7 11 5); lia.
Defined.

(** ** Subscripts in runs from a fresh machine *)

Section Fresh.

Lemma fresh_cells (memory_size : Z) (binary : list byte)
    (vm0 vm : VirtualMachine) :
  load_program binary (VirtualMachine_init memory_size) = (Ok tt, vm0) ->
  rtc stepped vm0 vm ->
  Forall cell_ok (data_memory vm).
Proof.
  intros Hload Hrtc.
  assert (H0 : Forall cell_ok (data_memory vm0)).
  { injection Hload as <-. simpl. apply Forall_replicate. unfold cell_ok. lia. }
  clear Hload. induction Hrtc as [x | x y z Hxy _ IH]; [exact H0|].
  apply IH. eapply stepped_cells; eassumption.
Qed.

Lemma list_setitem_nonneg_inv (l l' : list Z) (i v : Z) :
  0 <= i -> list_setitem l i v = Ok l' ->
  i < Z.of_nat (List.length l) /\ l' = <[Z.to_nat i := v]> l.
Proof.
  intros Hi H. apply list_setitem_Ok in H as (k & Hk & ->).
  pose proof (list_index_Some _ _ _ Hk) as Hlt.
  unfold list_index in Hk. destruct (Z.ltb_spec i 0); [lia|].
  destruct (Z.leb_spec 0 i); [|lia].
  destruct (Z.ltb_spec i (Z.of_nat (List.length l))); [|discriminate].
  injection Hk as <-. split; [lia|reflexivity].
Qed.

End Fresh.

(** X13. In a run from a fresh, zero-initialised machine the subscript of
    every assignment to the data memory is non-negative, so no write ever
    goes through counting from the end of the list: an executed step
    replaces the cell at exactly the address its operand designates.  For a
    Gte that address is at most 2047 + 255 = 2302 and the value stored is 0
    or 1, whatever the size of the memory. *)
Theorem fresh_run_writes
    (memory_size : Z) (binary : list byte) (vm0 vm vm' : VirtualMachine) :
  load_program binary (VirtualMachine_init memory_size) = (Ok tt, vm0) ->
  rtc stepped vm0 vm ->
  stepped vm vm' ->
  exists target value : Z,
    written_address vm target
    /\ 0 <= target < Z.of_nat (List.length (data_memory vm))
    /\ data_memory vm' = <[Z.to_nat target := value]> (data_memory vm)
    /\ (read_bits 0 7 vm = (Ok 68, vm) ->
        target <= 2302 /\ (value = 0 \/ value = 1)).
Proof.
  intros Hload Hrtc Hst.
  pose proof (fresh_cells _ _ _ _ Hload Hrtc) as Hcells.
  apply stepped_effect in Hst as (_ & l & n & He & ->).
  unfold written_address. rewrite !read_bits_pure by lia. simpl data_memory.
  destruct He as [l Hop Hset | base value l Hop H1 H2 Hset
                 | value l Hop H1 Hset | b1 br o1 o2 l Hop H1 H2 H3 H4 Hset].
  - pose proof (bits_at_range vm 18 26) as Hr.
    apply list_setitem_nonneg_inv in Hset as (Hlt & ->); [|lia].
    exists (bits_at vm 18 26), (bits_at vm 7 11). rewrite Hop.
    split; [left; split; reflexivity|]. split; [lia|]. split; [reflexivity|].
    intros [=].
  - pose proof (bits_at_range vm 41 26) as Hr.
    apply list_setitem_nonneg_inv in Hset as (Hlt & ->); [|lia].
    exists (bits_at vm 41 26), value. rewrite Hop.
    split; [right; left; split; reflexivity|]. split; [lia|].
    split; [reflexivity|]. intros [=].
  - pose proof (bits_at_range vm 33 26) as Hr.
    apply list_setitem_nonneg_inv in Hset as (Hlt & ->); [|lia].
    exists (bits_at vm 33 26), value. rewrite Hop.
    split; [right; right; left; split; reflexivity|]. split; [lia|].
    split; [reflexivity|]. intros [=].
  - pose proof (bits_at_range vm 93 8) as Hr.
    pose proof (list_getitem_Forall _ _ _ Hcells H2) as Hbr. unfold cell_ok in Hbr.
    apply list_setitem_nonneg_inv in Hset as (Hlt & ->); [|lia].
    exists (br + bits_at vm 93 8), (if o1 >=? o2 then 1 else 0). rewrite Hop.
    split.
    { right; right; right. split; [reflexivity|].
      exists (bits_at vm 67 26), (bits_at vm 93 8), br.
      repeat split; try reflexivity. exact H2. }
    split; [lia|]. split; [reflexivity|].
    intros _. split; [lia|]. destruct (o1 >=? o2); auto.
Qed.

Lemma fresh_run_writes_witness :
  let vm := {| data_memory := [0; 0; 0; 0]; code_memory := load_42_3; pc := 0 |} in
  let vm' := {| data_memory := [0; 0; 0; 42]; code_memory := load_42_3; pc := 6 |} in
  exists target value : Z,
    written_address vm target
    /\ 0 <= target < Z.of_nat (List.length (data_memory vm))
    /\ data_memory vm' = <[Z.to_nat target := value]> (data_memory vm)
    /\ (read_bits 0 7 vm = (Ok 68, vm) ->
        target <= 2302 /\ (value = 0 \/ value = 1)).
Proof.
  intros vm vm'.
  apply (fresh_run_writes 4 load_42_3 vm vm vm').
  - reflexivity.
  - apply rtc_refl.
  - eexists. vm_compute. reflexivity.
Defined.

(** ** The textual front end *)

Section FrontEnd.

Variable B : StrBuiltins.

Lemma cut_comment_app (s t : string) :
  cut_comment (s +:+ String "#"%char t) = cut_comment s.
Proof.
  induction s as [|c s IH]; simpl.
  - reflexivity.
  - destruct (Ascii.eqb c "#"%char); [reflexivity|]. rewrite IH. reflexivity.
Qed.

Lemma and_then_Ok {X Y : Type} (r : Res X) (k : X -> Res Y) (y : Y) :
  and_then r k = Ok y -> exists x, r = Ok x /\ k x = Ok y.
Proof. destruct r as [x|e]; simpl; [eauto|discriminate]. Qed.

Lemma parse_tokens_constructed (mnemonic : string) (args : list string)
    (i : Instruction) :
  parse_tokens B mnemonic args = Ok i -> constructed i.
Proof.
  unfold parse_tokens, constructed.
  destruct (String.eqb mnemonic "LOAD_CONST").
  { destruct args as [|a0 [|a1 [|? ?]]]; try discriminate. intros H.
    apply and_then_Ok in H as (c & _ & H). apply and_then_Ok in H as (a & _ & H).
    left. eauto. }
  destruct (String.eqb mnemonic "READ_MEM").
  { destruct args as [|a0 [|a1 [|a2 [|? ?]]]]; try discriminate. intros H.
    apply and_then_Ok in H as (o & _ & H). apply and_then_Ok in H as (s & _ & H).
    apply and_then_Ok in H as (d & _ & H).
    right; left. eauto. }
  destruct (String.eqb mnemonic "WRITE_MEM").
  { destruct args as [|a0 [|a1 [|? ?]]]; try discriminate. intros H.
    apply and_then_Ok in H as (s & _ & H). apply and_then_Ok in H as (d & _ & H).
    right; right; left. eauto. }
  destruct (String.eqb mnemonic "GTE").
  { destruct args as [|a0 [|a1 [|a2 [|a3 [|a4 [|? ?]]]]]]; try discriminate.
    intros H.
    apply and_then_Ok in H as (o1 & _ & H). apply and_then_Ok in H as (a1' & _ & H).
    apply and_then_Ok in H as (a2' & _ & H). apply and_then_Ok in H as (r & _ & H).
    apply and_then_Ok in H as (o2 & _ & H).
    right; right; right. eauto 10. }
  discriminate.
Qed.

Lemma parse_line_constructed (line : string) (i : Instruction) :
  parse_line B line = Ok (Some i) -> constructed i.
Proof.
  unfold parse_line.
  destruct (String.eqb _ ""); [discriminate|].
  destruct (py_split B _) as [|token args]; [discriminate|].
  destruct (parse_tokens B _ args) as [j|e] eqn:E; [|discriminate].
  intros [= <-]. eapply parse_tokens_constructed. exact E.
Qed.

Lemma assemble_lines_Ok (lines : list string) :
  forall (line_num : Z) (acc l : list Instruction),
    Forall constructed acc ->
    asm_result (assemble_lines B line_num lines acc) = Ok l ->
    asm_instructions (assemble_lines B line_num lines acc) = l
    /\ asm_stderr (assemble_lines B line_num lines acc) = []
    /\ Forall constructed l
    /\ (List.length l <= List.length acc + List.length lines)%nat.
Proof.
  induction lines as [|line rest IH]; intros n acc l Hacc; simpl.
  - intros [= <-]. repeat split; try assumption. lia.
  - destruct (parse_line B line) as [[i|]|[msg|msg|msg]] eqn:E; simpl;
      try discriminate.
    + intros H. apply IH in H as (H1 & H2 & H3 & H4).
      * repeat split; try assumption. rewrite length_app in H4. simpl in H4. lia.
      * apply Forall_app. split; [exact Hacc|].
        apply Forall_cons. split; [|constructor].
        eapply parse_line_constructed. exact E.
    + intros H. apply IH in H as (H1 & H2 & H3 & H4); [|exact Hacc].
      repeat split; try assumption. lia.
Qed.

Lemma assemble_lines_Raise (lines : list string) :
  forall (line_num : Z) (acc : list Instruction) (e : exn),
    asm_result (assemble_lines B line_num lines acc) = Raise e ->
    exists (k : nat) (line : string),
      lines !! k = Some line
      /\ parse_line B line = Raise e
      /\ asm_result (assemble_lines B line_num (take k lines) acc)
         = Ok (asm_instructions (assemble_lines B line_num lines acc))
      /\ asm_stderr (assemble_lines B line_num lines acc)
         = match e with
           | ValueError msg =>
               ["Ошибка в строке " +:+ str (line_num + Z.of_nat k)
                  +:+ ": " +:+ msg]
           | _ => []
           end.
Proof.
  induction lines as [|line rest IH]; intros n acc e; simpl.
  - discriminate.
  - destruct (parse_line B line) as [[i|]|e'] eqn:E.
    + intros H. apply IH in H as (k & l & Hk & Hp & Hpre & Herr).
      exists (S k), l. simpl. rewrite E.
      repeat split; try assumption.
      rewrite Herr. destruct e; try reflexivity.
      replace (n + Z.of_nat (S k)) with (n + 1 + Z.of_nat k) by lia.
      reflexivity.
    + intros H. apply IH in H as (k & l & Hk & Hp & Hpre & Herr).
      exists (S k), l. simpl. rewrite E.
      repeat split; try assumption.
      rewrite Herr. destruct e; try reflexivity.
      replace (n + Z.of_nat (S k)) with (n + 1 + Z.of_nat k) by lia.
      reflexivity.
    + exists 0%nat, line. simpl.
      destruct e' as [msg|msg|msg]; simpl in *; injection H as <-;
        rewrite ?Z.add_0_r; repeat split; assumption || reflexivity.
Qed.

End FrontEnd.

(** X14. Whatever follows the first [#] of a line is a comment:
    [parse_line] gives the same result, instruction, nothing or exception,
    with or without it. *)
Theorem parse_line_ignores_comment (B : StrBuiltins) (s t : string) :
  parse_line B (s +:+ String "#"%char t) = parse_line B s.
Proof. unfold parse_line. rewrite cut_comment_app. reflexivity. Qed.

(** X15. An instruction that [parse_line] returns went through the range
    checks of its constructor, whatever the tokens were: its operands are in
    range, and [to_bytes] encodes it without error into the byte count of
    its variant. *)
Theorem parse_line_encodable (B : StrBuiltins) (line : string) (i : Instruction) :
  parse_line B line = Ok (Some i) ->
  operands_in_range i
  /\ exists bs, to_bytes i = Ok bs /\ List.length bs = byte_length i.
Proof.
  intros H. apply parse_line_constructed in H.
  apply constructed_in_range in H. split; [exact H|].
  destruct (to_bytes_spec i H) as (bs & Hbs & Hl & _). eauto.
Qed.

Lemma parse_line_encodable_witness :
  operands_in_range (LoadConst 42 3)
  /\ exists bs,
       to_bytes (LoadConst 42 3) = Ok bs
       /\ List.length bs = byte_length (LoadConst 42 3).
Proof.
  apply (parse_line_encodable sample_builtins "LOAD_CONST 42 3# answer").
  vm_compute. reflexivity.
Defined.

(** X16. When [assemble] returns, the list it returns is the assembler's
    [instructions], nothing was printed on [stderr], there are at most as
    many instructions as lines, each of them has its operands in range, and
    [to_binary] then yields, without error, a binary whose size is the sum of
    their fixed sizes. *)
Theorem assemble_success
    (B : StrBuiltins) (source : string) (l : list Instruction) :
  asm_result (assemble B source) = Ok l ->
  asm_instructions (assemble B source) = l
  /\ asm_stderr (assemble B source) = []
  /\ (List.length l <= List.length (split_newline source))%nat
  /\ Forall operands_in_range l
  /\ exists binary,
       to_binary l = Ok binary /\ List.length binary = program_length l.
Proof.
  unfold assemble. intros H.
  apply assemble_lines_Ok in H as (H1 & H2 & H3 & H4); [|constructor].
  repeat split; try assumption.
  - eapply Forall_impl; [exact H3|]. exact constructed_in_range.
  - apply to_binary_in_range.
    eapply Forall_impl; [exact H3|]. exact constructed_in_range.
Qed.

Lemma assemble_success_witness :
  let source := "LOAD_CONST 42 3" +:+ String "010"%char "WRITE_MEM 3 4" in
  let l := [LoadConst 42 3; WriteMem 3 4] in
  asm_instructions (assemble sample_builtins source) = l
  /\ asm_stderr (assemble sample_builtins source) = []
  /\ (List.length l <= List.length (split_newline source))%nat
  /\ Forall operands_in_range l
  /\ exists binary,
       to_binary l = Ok binary /\ List.length binary = program_length l.
Proof.
  intros source l.
  apply (assemble_success sample_builtins source l).
  vm_compute. reflexivity.
Defined.

(** X17. When [assemble] raises, the exception is the one [parse_line]
    raised on the first line it rejects; the assembler's [instructions] are
    left holding what the lines before that one assembled to, not an empty
    list; and for a [ValueError] exactly one line was printed on [stderr],
    giving the number of the rejected line, counted from 1, and the
    message. *)
Theorem assemble_failure (B : StrBuiltins) (source : string) (e : exn) :
  asm_result (assemble B source) = Raise e ->
  exists (k : nat) (line : string),
    split_newline source !! k = Some line
    /\ parse_line B line = Raise e
    /\ asm_result (assemble_lines B 1 (take k (split_newline source)) [])
       = Ok (asm_instructions (assemble B source))
    /\ asm_stderr (assemble B source)
       = match e with
         | ValueError msg =>
             ["Ошибка в строке " +:+ str (1 + Z.of_nat k) +:+ ": " +:+ msg]
         | _ => []
         end.
Proof. unfold assemble. apply assemble_lines_Raise. Qed.

Lemma assemble_failure_witness :
  let source := "LOAD_CONST 42 3" +:+ String "010"%char "LOAD_CONST 2048 3" in
  let msg := "Ошибка в строке 'LOAD_CONST 2048 3': "
               +:+ "Константа 2048 вне диапазона [0, 2047]" in
  exists (k : nat) (line : string),
    split_newline source !! k = Some line
    /\ parse_line sample_builtins line = Raise (ValueError msg)
    /\ asm_result (assemble_lines sample_builtins 1
                     (take k (split_newline source)) [])
       = Ok (asm_instructions (assemble sample_builtins source))
    /\ asm_stderr (assemble sample_builtins source)
       = ["Ошибка в строке " +:+ str (1 + Z.of_nat k) +:+ ": " +:+ msg].
Proof.
  intros source msg.
  apply (assemble_failure sample_builtins source (ValueError msg)).
  vm_compute. reflexivity.
Defined.

Section ParseErrors.

Variable B : StrBuiltins.

Hypothesis py_int_raises :
  forall (s : string) (e : exn),
    py_int B s = Raise e -> exists msg, e = ValueError msg.

Ltac int_case H :=
  match type of H with
  | and_then (py_int B ?a) _ = Raise _ =>
      let E := fresh "E" in
      destruct (py_int B a) eqn:E; simpl in H;
      [ | injection H as <-; eapply py_int_raises; exact E ]
  end.

Ltac constructor_case H lem :=
  match type of H with
  | ?c = Raise _ =>
      let m := fresh "m" in
      let Hm := fresh "Hm" in
      destruct lem as [(_ & Hm)|(_ & m & Hm)]; rewrite Hm in H;
      [ discriminate | injection H as <-; eauto ]
  end.

Lemma parse_tokens_raises (mnemonic : string) (args : list string) (e : exn) :
  parse_tokens B mnemonic args = Raise e -> exists msg, e = ValueError msg.
Proof.
  unfold parse_tokens.
  destruct (String.eqb mnemonic "LOAD_CONST").
  { destruct args as [|a0 [|a1 [|? ?]]]; try (intros [= <-]; eauto; fail).
    intros H. int_case H. int_case H.
    constructor_case H (LoadConstInstruction_checks a a2). }
  destruct (String.eqb mnemonic "READ_MEM").
  { destruct args as [|a0 [|a1 [|a2 [|? ?]]]]; try (intros [= <-]; eauto; fail).
    intros H. int_case H. int_case H. int_case H.
    constructor_case H (ReadMemInstruction_checks a a3 a4). }
  destruct (String.eqb mnemonic "WRITE_MEM").
  { destruct args as [|a0 [|a1 [|? ?]]]; try (intros [= <-]; eauto; fail).
    intros H. int_case H. int_case H.
    constructor_case H (WriteMemInstruction_checks a a2). }
  destruct (String.eqb mnemonic "GTE").
  { destruct args as [|a0 [|a1 [|a2 [|a3 [|a4 [|? ?]]]]]];
      try (intros [= <-]; eauto; fail).
    intros H. int_case H. int_case H. int_case H. int_case H. int_case H.
    constructor_case H (GTEInstruction_checks a a5 a6 a7 a8). }
  intros [= <-]. eauto.
Qed.

Lemma parse_line_raises (line : string) (e : exn) :
  parse_line B line = Raise e ->
  exists msg,
    e = ValueError ("Ошибка в строке '" +:+ py_strip B (cut_comment line)
                      +:+ "': " +:+ msg).
Proof.
  unfold parse_line.
  destruct (String.eqb _ ""); [discriminate|].
  destruct (py_split B _) as [|token args]; [discriminate|].
  destruct (parse_tokens B _ args) as [j|e'] eqn:E; [discriminate|].
  intros [= <-]. apply parse_tokens_raises in E as [msg ->].
  exists msg. reflexivity.
Qed.

End ParseErrors.

(** X18. Provided [int()] raises nothing but [ValueError], every exception
    that leaves [parse_line] is a [ValueError] whose message starts by
    quoting the line as it was parsed, comment cut and blanks stripped:
    a wrong argument count, an unknown mnemonic, a malformed number and an
    operand out of range are all reported that way. *)
Theorem parse_line_error (B : StrBuiltins) (line : string) (e : exn) :
  (forall (s : string) (e' : exn),
      py_int B s = Raise e' -> exists msg, e' = ValueError msg) ->
  parse_line B line = Raise e ->
  exists msg,
    e = ValueError ("Ошибка в строке '" +:+ py_strip B (cut_comment line)
                      +:+ "': " +:+ msg).
Proof. intros Hint. apply parse_line_raises. exact Hint. Qed.

Lemma parse_line_error_witness :
  exists msg,
    ValueError ("Ошибка в строке 'LOAD_CONST 2048 3': "
                  +:+ "Константа 2048 вне диапазона [0, 2047]")
    = ValueError ("Ошибка в строке '"
                    +:+ py_strip sample_builtins (cut_comment "LOAD_CONST 2048 3")
                    +:+ "': " +:+ msg).
Proof.
  apply (parse_line_error sample_builtins "LOAD_CONST 2048 3").
  - intros s e'. simpl.
    repeat match goal with
      | |- context [if ?b then _ else _] => destruct b
      end; try discriminate.
    intros [= <-]. eexists. reflexivity.
  - vm_compute. reflexivity.
Defined.

(** ** The memory dump *)

Section Dump.

Variable memory : list Z.





End Dump.





(** The two messages of a dump that starts too low. *)
Example dump_below_the_list :
  dump_memory_xml {| data_memory := [5; 6; 7]; code_memory := []; pc := 0 |} (-4) 1
  = Raise (IndexError "list index out of range").
Proof. vm_compute. reflexivity. Qed.

Example dump_below_every_index :
  dump_memory_xml {| data_memory := [5; 6; 7]; code_memory := []; pc := 0 |}
    (-9223372036854775809) (-9223372036854775809)
  = Raise (IndexError "cannot fit 'int' into an index-sized integer").
Proof. vm_compute. reflexivity. Qed.

(** The dump of [[5; 6; 7]] over [-1 .. 4]: the last cell under address -1,
    then the three cells, and nothing for 3 and 4. *)
Example dump_sample :
  dump_memory_xml {| data_memory := [5; 6; 7]; code_memory := []; pc := 0 |} (-1) 4
  = Ok (mkElement "memory_dump"
          [("start_address", "-1"); ("end_address", "4")]
          [mkElement "cell" [("address", "-1"); ("value", "7")] [];
           mkElement "cell" [("address", "0"); ("value", "5")] [];
           mkElement "cell" [("address", "1"); ("value", "6")] [];
           mkElement "cell" [("address", "2"); ("value", "7")] []]).
Proof. vm_compute. reflexivity. Qed.

(** A failed [assemble] keeps the instructions of the lines before the
    rejected one. *)
Example assemble_keeps_partial_list :
  asm_instructions
    (assemble sample_builtins
       ("LOAD_CONST 42 3" +:+ String "010"%char "LOAD_CONST 2048 3"))
  = [LoadConst 42 3].
Proof. vm_compute. reflexivity. Qed.

(** ** Instances of the program properties *)

Lemma sample_program_constructed :
  Forall constructed [LoadConst 42 3; WriteMem 3 4].
Proof.
  apply Forall_cons_2; [left; exists 42, 3; reflexivity|].
  apply Forall_cons_2; [right; right; left; exists 3, 4; reflexivity|].
  apply Forall_nil_2.
Qed.

Lemma to_binary_constructed_witness :
  exists binary,
    to_binary [LoadConst 42 3; WriteMem 3 4] = Ok binary
    /\ List.length binary = program_length [LoadConst 42 3; WriteMem 3 4].
Proof.
  apply (to_binary_constructed [LoadConst 42 3; WriteMem 3 4]).
  exact sample_program_constructed.
Defined.

Lemma assembled_instruction_reads_back_witness :
  reads_back (WriteMem 3 4)
    {| data_memory := [];
       code_memory := load_42_3 ++ [xe5; x01; x00; x00; x08; x00; x00; x00];
       pc := Z.of_nat (program_length [LoadConst 42 3]) |}.
Proof.
  apply (assembled_instruction_reads_back [LoadConst 42 3] [] (WriteMem 3 4)).
  - exact sample_program_constructed.
  - vm_compute. reflexivity.
Defined.

